(** * Image-to-Prompt Generator: batched generation, response checking, copy-all

    A shallow embedding of the three pieces of logic of the application:

    - [services/geminiService.ts]: [generatePromptsFromImage], the client of
      the generative model (second, current version of the file);
    - [App.tsx]: [handleGeneratePrompts] and [handleCancel], the batched and
      cancellable generation loop;
    - [components/PromptList.tsx]: [handleCopy] and [handleCopyAll].

    JavaScript numbers that the code only uses as integers (the prompt count,
    the batch index, list lengths) are [Z] or [nat]; a number inside a decoded
    JSON body is an IEEE double ([float]).  Everything outside the program (the
    file reader, the network, the JSON decoder, the user pressing Cancel while a
    call is pending) is an explicit parameter. *)

From Stdlib Require Import ZArith Lia PrimFloat Ascii String.
From stdpp Require Import base option list strings gmap pretty.

Set Warnings "-register-all".

(** ** JavaScript values and errors *)

(** A thrown [Error]: the orchestrator only ever inspects [name]. *)
Record JsError := mkError { name : string; message : string }.

(** [new Error(msg)] *)
Definition Error (msg : string) : JsError := {| name := "Error"; message := msg |}.

(** [TypeError], raised by a property read on [null]. *)
Definition TypeError (msg : string) : JsError := {| name := "TypeError"; message := msg |}.

(** How an awaited promise settles. *)
Inductive Settled (A : Type) : Type :=
| Resolved (v : A)
| Rejected (e : JsError).
Arguments Resolved {A} v.
Arguments Rejected {A} e.

(** The value [JSON.parse] produces.  An object is a finite map from property
    names to values (a later duplicate key overwrites an earlier one, which is
    what a map gives). *)
Inductive json : Type :=
| JNull
| JBool (b : bool)
| JNum (x : float)
| JStr (s : string)
| JArr (items : list json)
| JObj (fields : gmap string json).

(** JavaScript truthiness of a value; [None] stands for [undefined]. *)
Definition truthy (v : option json) : bool :=
  match v with
  | None => false
  | Some JNull => false
  | Some (JBool b) => b
  | Some (JNum x) => negb (PrimFloat.eqb x 0%float) && negb (PrimFloat.is_nan x)
  | Some (JStr s) => negb (String.eqb s "")
  | Some (JArr _) => true
  | Some (JObj _) => true
  end.

(** [Array.isArray(v)] *)
Definition Array_isArray (v : option json) : bool :=
  match v with
  | Some (JArr _) => true
  | _ => false
  end.

(** The property read [v.k] on a decoded value: an own property of an object,
    [undefined] on any other non-null value (none of them has a property of
    the three names read here), a [TypeError] on [null]. *)
Definition getProp (v : json) (k : string) : JsError + option json :=
  match v with
  | JNull => inl (TypeError "Cannot read properties of null")
  | JObj fields => inr (fields !! k)
  | _ => inr None
  end.

(** [xs.join(sep)] as ECMAScript defines it: start from the first element and
    append the separator and the next element in turn. *)
Definition join (sep : string) (xs : list string) : string :=
  match xs with
  | [] => ""
  | x :: rest => fold_left (fun R next => R +:+ sep +:+ next) rest x
  end.

(** [s.split(sep)] for a one-character separator. *)
Fixpoint split (sep : ascii) (s : string) : list string :=
  match s with
  | EmptyString => [EmptyString]
  | String c rest =>
      if Ascii.eqb c sep then EmptyString :: split sep rest
      else match split sep rest with
           | [] => [String c EmptyString]
           | piece :: pieces => String c piece :: pieces
           end
  end.

(** The line feed of a template literal, and a double quote. *)
Definition LF : string := String (Ascii.ascii_of_nat 10) EmptyString.
Definition DQ : string := String (Ascii.ascii_of_nat 34) EmptyString.
Definition quoted (s : string) : string := DQ +:+ s +:+ DQ.

(** [Math.ceil(a / b)] for integers [a] and [b > 0]. *)
Definition Math_ceil_div (a b : Z) : Z := (- ((- a) / b))%Z.

(** ** services/geminiService.ts *)

Module GeminiService.

Record File := mkFile { type : string; bytes : list Byte.byte }.

(** The argument of [ai.models.generateContent]: the parts that vary. The
    response schema is fixed, with [identifiedSubject], [identifiedStyle] and
    [prompts] required; only the description of [prompts] depends on the
    call. *)
Record Request := mkRequest {
  model : string;
  inlineData_mimeType : string;
  inlineData_data : option string;
  text : string;
  schema_prompts_description : string
}.

(** The declared type of what the returned promise resolves to. *)
Record GenerationResult := mkResult {
  prompts : list string;
  identifiedStyle : string;
  identifiedSubject : string
}.

(** The arguments of one call of [generatePromptsFromImage], as the
    application passes them. *)
Record Args := mkArgs {
  imageFile : File;
  apiKey : string;
  count : Z;
  existingPrompts : option (list string);
  description : string
}.

(** What the function does to the outside, in order. *)
Inductive IO :=
| ReadFile (f : File)
| NetworkRequest (key : string) (req : Request)
| ConsoleError (msg : string) (detail : string).

Definition missingKey : JsError := Error "API key is missing.".
Definition invalidStructure : JsError := Error "Invalid JSON structure in response.".
Definition couldNotParse : JsError :=
  Error "Could not parse the generated prompts. The API might have returned an unexpected format.".

Definition userDescriptionInstruction (description : option string) : string :=
  match description with
  | Some d =>
      if String.eqb d "" then ""
      else "The user has provided this description for context: " +:+ quoted d
           +:+ ". Use this to guide your analysis and identification."
  | None => ""
  end.

Definition initialInstruction (description : option string) : string :=
  join LF [
    "You are a highly perceptive AI specializing in image analysis and prompt engineering. Your task is a multi-step process:";
    userDescriptionInstruction description;
    "1.  **Identify Core Subject**: First, identify the main subject of the image in a few words (e.g., "
      +:+ quoted "Formula 1 race car" +:+ ", " +:+ quoted "Golden Retriever puppy" +:+ ", "
      +:+ quoted "Fantasy castle"
      +:+ "). If the user provided a description, let it heavily influence this step.";
    "2.  **Analyze Style Characteristics**: Meticulously analyze the provided image. Deconstruct its core visual characteristics, focusing on:";
    "    *   **Line Work**: Is it clean, bold, sketchy, thin, non-existent? (e.g., "
      +:+ quoted "clean, bold black outlines" +:+ ").";
    "    *   **Color Palette**: Is it monochromatic, vibrant, muted, black and white? (e.g., "
      +:+ quoted "black and white, high contrast" +:+ ").";
    "    *   **Shading & Texture**: Is it flat, cel-shaded, photorealistic, painterly, non-existent? (e.g., "
      +:+ quoted "no shading, flat fills" +:+ ").";
    "    *   **Overall Aesthetic**: What is the overall feeling? (e.g., "
      +:+ quoted "designed for coloring," +:+ " " +:+ quoted "technical drawing," +:+ " "
      +:+ quoted "minimalist" +:+ ").";
    "3.  **Identify and Name Style**: Based on your style analysis, provide a concise name for the artistic style (e.g., "
      +:+ quoted "Coloring book page" +:+ ", " +:+ quoted "Technical line art" +:+ ", "
      +:+ quoted "Vector illustration" +:+ ")."
  ].

Definition generationInstruction (count : Z) : string :=
  join LF [
    "4.  **Generate Prompts**: Generate " +:+ pretty count
      +:+ " distinct, highly detailed, and creative prompts. **Crucially, each prompt must satisfy two conditions**:";
    "    *   **Subject Relevance**: The subject of the prompt must be the same as or closely related to the core subject you identified in step 1.";
    "    *   **Style Replication**: The prompt must explicitly embed the specific style characteristics you identified in step 2. Do not just use the style name. For example, instead of just "
      +:+ quoted "in a coloring book style" +:+ ", the prompt must contain descriptors like "
      +:+ quoted "bold black outlines, no shading, on a clean white background" +:+ "."
  ].

(** An array is truthy even when empty: the paragraph is left out only when
    the argument is [undefined]. *)
Definition continuationInstruction (existingPrompts : option (list string)) : string :=
  match existingPrompts with
  | Some existing =>
      "You have already generated the following prompts. Ensure the new prompts are unique and different from these:"
      +:+ LF +:+ join (LF +:+ "- ") existing +:+ LF
  | None => ""
  end.

Definition finalInstruction : string :=
  join LF [
    "The goal is to create new, related subjects that perfectly match the original's aesthetic.";
    "";
    "Return ONLY a JSON object with the identified subject, the identified style name, and the list of prompts."
  ].

Definition buildRequest (imageFile : File) (base64Image : option string) (count : Z)
    (existingPrompts : option (list string)) (description : option string) : Request :=
  {| model := "gemini-2.5-flash";
     inlineData_mimeType := type imageFile;
     inlineData_data := base64Image;
     text := initialInstruction description +:+ LF +:+ generationInstruction count +:+ LF
             +:+ continuationInstruction existingPrompts +:+ LF +:+ finalInstruction;
     schema_prompts_description :=
       "A list of " +:+ pretty count
       +:+ " creative image prompts that are thematically related to the subject and explicitly include the identified style characteristics." |}.

(** The condition of the [if] inside the [try]: the four conjuncts in source
    order.  Reading a property of [null] throws. *)
Definition structureOk (jsonResponse : json) : JsError + bool :=
  match getProp jsonResponse "prompts",
        getProp jsonResponse "identifiedStyle",
        getProp jsonResponse "identifiedSubject" with
  | inr prompts, inr identifiedStyle, inr identifiedSubject =>
      inr (truthy prompts && Array_isArray prompts
           && truthy identifiedStyle && truthy identifiedSubject)
  | inl e, _, _ => inl e
  | _, inl e, _ => inl e
  | _, _, inl e => inl e
  end.

Section Client.

(** The outside world of one call. *)
Variable readAsDataURL : File -> Settled string.
Variable generateContent : string -> Request -> Settled string.
(** [JSON.parse]; [None] is a [SyntaxError]. *)
Variable JSON_parse : string -> option json.

(** [fileToBase64]: the part of the data URL after the first comma
    ([undefined] when there is none). *)
Definition fileToBase64 (file : File) : Settled (option string) :=
  match readAsDataURL file with
  | Resolved result => Resolved (split "," result !! 1%nat)
  | Rejected e => Rejected e
  end.

(** The body of the [try]: decode, check, return the decoded object or
    throw. *)
Definition tryDecode (response_text : string) : JsError + json :=
  match JSON_parse response_text with
  | None => inl (mkError "SyntaxError" "Unexpected token")
  | Some jsonResponse =>
      match structureOk jsonResponse with
      | inl e => inl e
      | inr true => inr jsonResponse
      | inr false => inl invalidStructure
      end
  end.

(** The [try]/[catch]: whatever is thrown inside (the syntax error, the
    type error or the function's own [invalidStructure]) is logged and
    replaced by [couldNotParse]. *)
Definition decodeResponse (response_text : string) : list IO * Settled json :=
  match tryDecode response_text with
  | inr jsonResponse => ([], Resolved jsonResponse)
  | inl _ =>
      ([ConsoleError "Failed to parse Gemini response:" response_text],
       Rejected couldNotParse)
  end.

(** [generatePromptsFromImage]: the effects performed, in order, and how
    the returned promise settles.  An omitted [count] defaults to 5. *)
Definition generatePromptsFromImage (imageFile : File) (apiKey : string)
    (count : option Z) (existingPrompts : option (list string))
    (description : option string) : list IO * Settled json :=
  if String.eqb apiKey "" then ([], Rejected missingKey)
  else
    let count := default 5%Z count in
    match fileToBase64 imageFile with
    | Rejected e => ([ReadFile imageFile], Rejected e)
    | Resolved base64Image =>
        let request := buildRequest imageFile base64Image count existingPrompts description in
        match generateContent apiKey request with
        | Rejected e => ([ReadFile imageFile; NetworkRequest apiKey request], Rejected e)
        | Resolved response_text =>
            let '(io, settled) := decodeResponse response_text in
            ([ReadFile imageFile; NetworkRequest apiKey request] ++ io, settled)
        end
    end.

End Client.

End GeminiService.

(** ** App.tsx *)

Module App.

Import GeminiService.

(** An [AbortController]; [aborted] is what [signal.aborted] reads. *)
Record AbortController := mkController { aborted : bool }.

(** The component's state: the [useState] cells the two handlers read or
    write, and the [useRef] cell holding the controller of the run. *)
Record AppState := mkApp {
  imageFile : option File;
  apiKey : string;
  imageDescription : string;
  prompts : list string;
  promptCount : Z;
  identifiedStyle : option string;
  identifiedSubject : option string;
  isLoading : bool;
  loadingStatus : string;
  error : option string;
  generationAbortController : option AbortController
}.

(** How the environment answers one awaited call: how the promise settles,
    and whether the user pressed the Cancel button while it was pending
    (the only moment the event loop can run [handleCancel] during a run,
    the call being the only [await] of the loop). *)
Record Reply := mkReply {
  outcome : Settled GenerationResult;
  cancelPressed : bool
}.

(** What a handler does, in order: state setters with the value stored, the
    calls of the client, aborts and console output. *)
Inductive Event :=
| Call (batch : nat) (args : Args)
| SetError (v : option string)
| SetPrompts (v : list string)
| SetIdentifiedStyle (v : option string)
| SetIdentifiedSubject (v : option string)
| SetIsLoading (v : bool)
| SetLoadingStatus (v : string)
| NewAbortController
| Abort
| ConsoleLog (msg : string)
| ConsoleErr (e : JsError).

Record World := mkWorld { app : AppState; log : list Event }.

(** Handlers are state transformers over [World]. *)
Definition M (A : Type) : Type := World -> A * World.

#[global] Instance M_ret : MRet M := fun A x w => (x, w).
#[global] Instance M_bind : MBind M :=
  fun A B f m w => let '(x, w') := m w in f x w'.

Definition get : M AppState := fun w => (app w, w).

Definition update (ev : Event) (f : AppState -> AppState) : M unit :=
  fun w => (tt, {| app := f (app w); log := log w ++ [ev] |}).

Definition emit (ev : Event) : M unit := update ev id.

Definition setError (v : option string) : M unit :=
  update (SetError v) (fun s =>
    mkApp (imageFile s) (apiKey s) (imageDescription s) (prompts s) (promptCount s)
          (identifiedStyle s) (identifiedSubject s) (isLoading s) (loadingStatus s)
          v (generationAbortController s)).

(** [setPrompts(f)] with an updater function. *)
Definition setPrompts (f : list string -> list string) : M unit :=
  fun w =>
    update (SetPrompts (f (prompts (app w)))) (fun s =>
      mkApp (imageFile s) (apiKey s) (imageDescription s) (f (prompts s)) (promptCount s)
            (identifiedStyle s) (identifiedSubject s) (isLoading s) (loadingStatus s)
            (error s) (generationAbortController s)) w.

Definition setIdentifiedStyle (v : option string) : M unit :=
  update (SetIdentifiedStyle v) (fun s =>
    mkApp (imageFile s) (apiKey s) (imageDescription s) (prompts s) (promptCount s)
          v (identifiedSubject s) (isLoading s) (loadingStatus s)
          (error s) (generationAbortController s)).

Definition setIdentifiedSubject (v : option string) : M unit :=
  update (SetIdentifiedSubject v) (fun s =>
    mkApp (imageFile s) (apiKey s) (imageDescription s) (prompts s) (promptCount s)
          (identifiedStyle s) v (isLoading s) (loadingStatus s)
          (error s) (generationAbortController s)).

Definition setIsLoading (v : bool) : M unit :=
  update (SetIsLoading v) (fun s =>
    mkApp (imageFile s) (apiKey s) (imageDescription s) (prompts s) (promptCount s)
          (identifiedStyle s) (identifiedSubject s) v (loadingStatus s)
          (error s) (generationAbortController s)).

Definition setLoadingStatus (v : string) : M unit :=
  update (SetLoadingStatus v) (fun s =>
    mkApp (imageFile s) (apiKey s) (imageDescription s) (prompts s) (promptCount s)
          (identifiedStyle s) (identifiedSubject s) (isLoading s) v
          (error s) (generationAbortController s)).

Definition setController (ev : Event) (c : option AbortController) : M unit :=
  update ev (fun s =>
    mkApp (imageFile s) (apiKey s) (imageDescription s) (prompts s) (promptCount s)
          (identifiedStyle s) (identifiedSubject s) (isLoading s) (loadingStatus s)
          (error s) c).

(** [generationAbortController.current = new AbortController()] *)
Definition newAbortController : M unit :=
  setController NewAbortController (Some {| aborted := false |}).

(** [signal.aborted].  During a run the ref cell is assigned once, at the
    start, so the [signal] constant of the run and the controller in the
    cell are one object: the flag is read through the cell. *)
Definition signal_aborted : M bool :=
  fun w => (from_option aborted false (generationAbortController (app w)), w).

(** [handleCancel] *)
Definition handleCancel : M unit :=
  s ← get;
  match generationAbortController s with
  | Some _ => setController Abort (Some {| aborted := true |})
  | None => mret tt
  end ;;
  setIsLoading false ;;
  setLoadingStatus "".

(** The ways the [for] statement is left. *)
Inductive Exit :=
| Completed                 (* [i < totalBatches] is false *)
| BreakAborted              (* [break] at [signal.aborted] *)
| BreakNothingLeft          (* [break] at [promptsToGenerate <= 0] *)
| Thrown (e : JsError).     (* the awaited call rejected *)

(** The loop's local variables. *)
Record Locals := mkLocals { i : nat; accumulatedPrompts : list string }.

Inductive Control :=
| Next (l : Locals)
| Stop (x : Exit) (l : Locals).

Definition generic_failure : string :=
  "Failed to generate prompts. Check your API key or try again later.".

Section Run.

(** The client as the loop sees it: the answer to the call issued in
    batch [i] with the given arguments. *)
Variable client : nat -> Args -> Reply.

(** The values the callback closed over. *)
Variable file : File.
Variable key : string.
Variable N : Z.
Variable descr : string.

(** [await generatePromptsFromImage(...)]: the call is issued, the event
    loop runs while it is pending, the promise settles. *)
Definition await_call (batch : nat) (args : Args) : M (Settled GenerationResult) :=
  emit (Call batch args) ;;
  (if cancelPressed (client batch args) then handleCancel else mret tt) ;;
  mret (outcome (client batch args)).

(** One pass through the body of the [for] statement, including [i++]. *)
Definition body (l : Locals) : M Control :=
  stop ← signal_aborted;
  if stop : bool then
    emit (ConsoleLog "Generation aborted by user.") ;;
    mret (Stop BreakAborted l)
  else
    let accumulated := accumulatedPrompts l in
    let promptsToGenerate := Z.min 5 (N - Z.of_nat (length accumulated)) in
    if (promptsToGenerate <=? 0)%Z then mret (Stop BreakNothingLeft l)
    else
      setLoadingStatus ("Generating "
                        +:+ pretty (Z.of_nat (length accumulated) + promptsToGenerate)%Z
                        +:+ " of " +:+ pretty N +:+ "...") ;;
      let existingPrompts := if Nat.eqb (i l) 0 then None else Some accumulated in
      settled ← await_call (i l) (mkArgs file key promptsToGenerate existingPrompts descr);
      match settled with
      | Rejected e => mret (Stop (Thrown e) l)
      | Resolved result =>
          let newPrompts := GeminiService.prompts result in
          (if Nat.eqb (i l) 0 then
             setIdentifiedStyle (Some (GeminiService.identifiedStyle result)) ;;
             setIdentifiedSubject (Some (GeminiService.identifiedSubject result))
           else mret tt) ;;
          setPrompts (fun prev => prev ++ newPrompts) ;;
          mret (Next {| i := S (i l); accumulatedPrompts := accumulated ++ newPrompts |})
      end.

(** The [for] statement with [remaining] passes still allowed by its
    bound, i.e. [remaining = totalBatches - i]. *)
Fixpoint forLoop (remaining : nat) (l : Locals) : M (Exit * Locals) :=
  match remaining with
  | O => mret (Completed, l)
  | S remaining' =>
      c ← body l;
      match c with
      | Next l' => forLoop remaining' l'
      | Stop x l' => mret (x, l')
      end
  end.

(** The [try] block. *)
Definition tryBlock : M (Exit * Locals) :=
  let totalBatches := Math_ceil_div N 5 in
  forLoop (Z.to_nat totalBatches) {| i := 0; accumulatedPrompts := [] |}.

(** The [catch] clause. *)
Definition catchClause (x : Exit) : M unit :=
  match x with
  | Thrown err =>
      emit (ConsoleErr err) ;;
      if negb (String.eqb (name err) "AbortError")
      then setError (Some generic_failure)
      else mret tt
  | _ => mret tt
  end.

(** The start of a run: a fresh controller, the loading flag, and the reset
    of what the previous run left. *)
Definition resetRun : M unit :=
  newAbortController ;;
  setIsLoading true ;;
  setError None ;;
  setPrompts (fun _ => []) ;;
  setIdentifiedStyle None ;;
  setIdentifiedSubject None.

(** The [finally] clause. *)
Definition finallyClause : M unit :=
  setIsLoading false ;;
  setLoadingStatus "".

(** The part of [handleGeneratePrompts] after the two guards: the reset, the
    [try] block, the [catch] clause and the [finally] clause. *)
Definition generate : M (Exit * Locals) :=
  resetRun ;;
  r ← tryBlock;
  catchClause (fst r) ;;
  finallyClause ;;
  mret r.

End Run.

(** [handleGeneratePrompts].  The handler itself returns nothing; the model
    returns how the loop was left and its final local variables ([None]
    when a guard returned before the run started). *)
Definition handleGeneratePrompts (client : nat -> Args -> Reply) : M (option (Exit * Locals)) :=
  s ← get;
  match imageFile s with
  | None => setError (Some "Please upload an image first.") ;; mret None
  | Some file =>
      if String.eqb (apiKey s) "" then
        setError (Some "Please enter your Google Gemini API key.") ;; mret None
      else
        r ← generate client file (apiKey s) (promptCount s) (imageDescription s);
        mret (Some r)
  end.

(** The calls recorded in a log, in order. *)
Definition calls (evs : list Event) : list (nat * Args) :=
  omap (fun ev => match ev with Call b a => Some (b, a) | _ => None end) evs.

End App.

(** ** components/PromptList.tsx *)

Module PromptList.

(** The component's two state cells. *)
Record State := mkState { copiedIndex : option nat; allCopied : bool }.

(** The callbacks handed to [setTimeout]. *)
Inductive Callback := ClearCopiedIndex | ClearAllCopied.

(** The component with what it writes to: the texts given to
    [navigator.clipboard.writeText], oldest first, and the timers set. *)
Record World := mkWorld {
  state : State;
  clipboard : list string;
  timers : list (Callback * Z)
}.

(** [handleCopy(text, index)] *)
Definition handleCopy (text : string) (index : nat) (w : World) : World :=
  {| state := {| copiedIndex := Some index; allCopied := false |};
     clipboard := clipboard w ++ [text];
     timers := timers w ++ [(ClearCopiedIndex, 2000%Z)] |}.

(** The template literal of the [map] callback: index plus one, a full stop,
    a space, the prompt. *)
Definition numbered (i : nat) (p : string) : string :=
  pretty (i + 1)%nat +:+ ". " +:+ p.

(** [handleCopyAll()] for the component's [prompts] property. *)
Definition handleCopyAll (prompts : list string) (w : World) : World :=
  let allPromptsText := join (LF +:+ LF) (imap numbered prompts) in
  {| state := {| copiedIndex := None; allCopied := true |};
     clipboard := clipboard w ++ [allPromptsText];
     timers := timers w ++ [(ClearAllCopied, 2000%Z)] |}.

End PromptList.

(** ** Vocabulary of the properties *)

Module Props.

Import GeminiService App.

(** The decoded body has a property of that name. *)
Definition present (body : json) (k : string) : Prop :=
  exists v, getProp body k = inr (Some v).

(** The decoded body has a property of that name and it is an array. *)
Definition present_array (body : json) (k : string) : Prop :=
  exists items, getProp body k = inr (Some (JArr items)).

(** What the check inside the client accepts: [prompts] is an array and the
    two labels are present with a truthy value. *)
Definition accepted (body : json) : Prop :=
  exists fields items,
    body = JObj fields
    /\ fields !! "prompts" = Some (JArr items)
    /\ truthy (fields !! "identifiedStyle") = true
    /\ truthy (fields !! "identifiedSubject") = true.

(** The prompts a call brought back (none when it was rejected). *)
Definition brought (client : nat -> Args -> Reply) (c : nat * Args) : list string :=
  match outcome (client (fst c) (snd c)) with
  | Resolved result => GeminiService.prompts result
  | Rejected _ => []
  end.

(** All the prompts a sequence of calls brought back, in order. *)
Definition delivered (client : nat -> Args -> Reply) (cs : list (nat * Args)) : list string :=
  concat (map (brought client) cs).

(** The assignments of the two labels recorded in a log. *)
Definition labelEvents (evs : list Event) : list Event :=
  omap (fun ev => match ev with
                  | SetIdentifiedStyle _ | SetIdentifiedSubject _ => Some ev
                  | _ => None
                  end) evs.

(** The error messages shown, in order. *)
Definition errorsShown (evs : list Event) : list string :=
  omap (fun ev => match ev with SetError (Some msg) => Some msg | _ => None end) evs.

(** A rejection the [catch] clause treats as a cancellation. *)
Definition isAbortError (e : JsError) : bool := String.eqb (name e) "AbortError".

(** The starting point of the loop. *)
Definition start : Locals := {| i := 0; accumulatedPrompts := [] |}.

(** What [signal.aborted] reads in a world. *)
Definition raised (w : World) : bool :=
  from_option aborted false (generationAbortController (app w)).

(** The events a handler adds to the log of the world it starts in. *)
Definition events_of {A : Type} (m : M A) (w : World) : list Event :=
  drop (length (log w)) (log (snd (m w))).

(** The arguments the loop body passes to the client from given local
    variables: at most five and at most what is missing, and the accumulated
    list except in the first batch. *)
Definition nextArgs (file : File) (key : string) (N : Z) (descr : string)
    (l : Locals) : Args :=
  {| GeminiService.imageFile := file;
     GeminiService.apiKey := key;
     count := Z.min 5 (N - Z.of_nat (length (accumulatedPrompts l)));
     existingPrompts := if Nat.eqb (i l) 0 then None else Some (accumulatedPrompts l);
     description := descr |}.

(** A call that was answered with a result. *)
Definition resolved (client : nat -> Args -> Reply) (c : nat * Args) : Prop :=
  exists result, outcome (client (fst c) (snd c)) = Resolved result.

(** The handler is past its two guards: an image is selected and the
    credential is not empty. *)
Definition ready (w : World) (file : File) : Prop :=
  imageFile (app w) = Some file /\ apiKey (app w) <> "".

(** The two labels are unset together or set together. *)
Definition both_or_neither (s : AppState) : Prop :=
  (identifiedStyle s = None /\ identifiedSubject s = None)
  \/ (exists style subject,
        identifiedStyle s = Some style /\ identifiedSubject s = Some subject).

(** The events of the reset that starts a run. *)
Definition resetEvents : list Event :=
  [NewAbortController; SetIsLoading true; SetError None; SetPrompts [];
   SetIdentifiedStyle None; SetIdentifiedSubject None].

(** The result of the first batch, when there is one: the target is
    positive, so that a first call is issued, and the call is answered with a
    result. *)
Definition firstResult (client : nat -> Args -> Reply) (file : File) (key : string)
    (N : Z) (descr : string) : option GenerationResult :=
  if (0 <? N)%Z then
    match outcome (client 0 (nextArgs file key N descr start)) with
    | Resolved result => Some result
    | Rejected _ => None
    end
  else None.

(** The assignments of the two labels from a result. *)
Definition labelsFrom (first : option GenerationResult) : list Event :=
  match first with
  | Some result =>
      [SetIdentifiedStyle (Some (GeminiService.identifiedStyle result));
       SetIdentifiedSubject (Some (GeminiService.identifiedSubject result))]
  | None => []
  end.

(** What pressing Cancel does to the controller cell. *)
Definition cancelled (c : option AbortController) : option AbortController :=
  match c with
  | Some _ => Some {| aborted := true |}
  | None => None
  end.

(** Copy-all as the specification words it: prompt number [i], counted from
    zero, becomes the line [i+1], full stop, space, prompt; the lines are
    separated by one blank line. *)
Fixpoint blank_line_separated (lines : list string) : string :=
  match lines with
  | [] => ""
  | [line] => line
  | line :: more => line +:+ LF +:+ LF +:+ blank_line_separated more
  end.

Definition copy_all_spec (prompts : list string) : string :=
  blank_line_separated
    (zip_with (fun i p => pretty (S i) +:+ ". " +:+ p) (seq 0 (length prompts)) prompts).

End Props.

(** ** Sample inputs *)

Module Samples.

Import GeminiService App Props.

Definition png : File := {| type := "image/png"; bytes := [] |}.

(** The application at rest: an image and a credential are there, the
    slider stands at [N]. *)
Definition idle (N : Z) : World :=
  {| app := {| imageFile := Some png; apiKey := "key"; imageDescription := "";
               prompts := []; promptCount := N;
               identifiedStyle := None; identifiedSubject := None;
               isLoading := false; loadingStatus := ""; error := None;
               generationAbortController := None |};
     log := [] |}.

(** A result with [n] prompts. *)
Definition answer (n : nat) : GenerationResult :=
  {| GeminiService.prompts := replicate n "a cat, bold outlines";
     GeminiService.identifiedStyle := "Line art";
     GeminiService.identifiedSubject := "Cat" |}.

(** Brings back exactly what was asked for. *)
Definition obliging : nat -> Args -> Reply :=
  fun _ a => {| outcome := Resolved (answer (Z.to_nat (count a))); cancelPressed := false |}.

(** Brings back one prompt more than asked for. *)
Definition generous : nat -> Args -> Reply :=
  fun _ a => {| outcome := Resolved (answer (S (Z.to_nat (count a)))); cancelPressed := false |}.

(** Every call fails at the transport. *)
Definition offline : nat -> Args -> Reply :=
  fun _ _ => {| outcome := Rejected (Error "Failed to fetch"); cancelPressed := false |}.

(** Obliging, but the user presses Cancel while the first call is pending. *)
Definition interrupted : nat -> Args -> Reply :=
  fun b a => {| outcome := Resolved (answer (Z.to_nat (count a)));
                cancelPressed := Nat.eqb b 0 |}.

(** A world in which a run is under way: the controller is there, its signal
    not raised. *)
Definition running (N : Z) : World := {| app := app (snd (resetRun (idle N))); log := [] |}.

(** The same with the signal raised. *)
Definition cancelledWorld (N : Z) : World := snd (handleCancel (running N)).

(** A decoded body as the schema asks for it, and one whose style label is
    the empty string. *)
Definition body_ok : json :=
  JObj (list_to_map [("identifiedSubject", JStr "Cat");
                     ("identifiedStyle", JStr "Line art");
                     ("prompts", JArr [JStr "a cat, bold outlines"])]).

Definition body_empty_style : json :=
  JObj (list_to_map [("identifiedSubject", JStr "Cat");
                     ("identifiedStyle", JStr "");
                     ("prompts", JArr [JStr "a cat, bold outlines"])]).

(** A world outside the client in which the file is read, the model answers
    and the answer decodes to a given body. *)
Definition reader : File -> Settled string :=
  fun _ => Resolved "data:image/png;base64,iVBORw0KGgo=".

Definition model : string -> Request -> Settled string :=
  fun _ _ => Resolved "{...}".

Definition decodes_to (body : json) : string -> option json :=
  fun _ => Some body.

End Samples.

(** ** components/ImageUploader.tsx *)

Module ImageUploader.

Import GeminiService.

(** What a handler of the uploader does: the two calls on the event, the
    reset of the hidden file input, and the call of [onImageChange]. *)
Inductive Effect :=
| PreventDefault
| StopPropagation
| ClearFileInput
| OnImageChange (file : option File).

(** [files?.[0]] on a file list that may be null. *)
Definition firstFile (files : option (list File)) : option File :=
  match files with
  | Some (file :: _) => Some file
  | _ => None
  end.

(** [handleFileChange]: the picker's change event. *)
Definition handleFileChange (files : option (list File)) : list Effect :=
  match firstFile files with
  | Some file => [OnImageChange (Some file)]
  | None => []
  end.

(** [handleDrop] for the component's [disabled] property. *)
Definition handleDrop (disabled : bool) (files : option (list File)) : list Effect :=
  [PreventDefault; StopPropagation]
  ++ (if disabled then []
      else match firstFile files with
           | Some file =>
               if String.prefix "image/" (type file) then [OnImageChange (Some file)] else []
           | None => []
           end).

(** [handleDragOver] *)
Definition handleDragOver : list Effect := [PreventDefault; StopPropagation].

(** [handleClearImage]; [mounted] says whether [fileInputRef.current] is set. *)
Definition handleClearImage (mounted : bool) : list Effect :=
  [PreventDefault; StopPropagation]
  ++ (if mounted then [ClearFileInput] else [])
  ++ [OnImageChange None].

End ImageUploader.

(** ** App.tsx: the input handlers and what is rendered *)

Module Page.

Import GeminiService App.

Definition storageKey : string := "gemini-api-key".

(** The component together with what its input handlers reach outside the
    run: the preview URL cell, the browser's local storage, and the files
    handed to a [FileReader], oldest first.  The log inside [page] stays that
    of the run handlers; the input handlers add nothing to it. *)
Record Browser := mkBrowser {
  page : World;
  imageUrl : option string;
  localStorage : gmap string string;
  reads : list File
}.

(** The [useState] and [useRef] initial values; [getItem(...) || ''] gives
    the empty string for a missing entry and for an empty one. *)
Definition initialApp (storage : gmap string string) : AppState :=
  {| imageFile := None;
     apiKey := match storage !! storageKey with
               | Some stored => if String.eqb stored "" then "" else stored
               | None => ""
               end;
     imageDescription := "";
     prompts := [];
     promptCount := 5;
     identifiedStyle := None;
     identifiedSubject := None;
     isLoading := false;
     loadingStatus := "";
     error := None;
     generationAbortController := None |}.

(** The page as first rendered over a given storage. *)
Definition initial (storage : gmap string string) : Browser :=
  {| page := {| app := initialApp storage; log := [] |};
     imageUrl := None;
     localStorage := storage;
     reads := [] |}.

(** [handleImageChange]: the selected file replaces the old one and what the
    last run left is dropped; the preview is cleared at once for [null] and
    otherwise left to the reader's [onloadend]. *)
Definition handleImageChange (file : option File) (b : Browser) : Browser :=
  let s := app (page b) in
  let s' := mkApp file (apiKey s) (imageDescription s) [] (promptCount s)
                  None None (isLoading s) (loadingStatus s) None
                  (generationAbortController s) in
  {| page := {| app := s'; log := log (page b) |};
     imageUrl := match file with Some _ => imageUrl b | None => None end;
     localStorage := localStorage b;
     reads := match file with Some f => reads b ++ [f] | None => reads b end |}.

(** The reader's [onloadend] callback: [setImageUrl(reader.result)]. *)
Definition onloadend (result : option string) (b : Browser) : Browser :=
  {| page := page b; imageUrl := result; localStorage := localStorage b; reads := reads b |}.

(** [handleApiKeyChange] *)
Definition handleApiKeyChange (newKey : string) (b : Browser) : Browser :=
  let s := app (page b) in
  let s' := mkApp (imageFile s) newKey (imageDescription s) (prompts s) (promptCount s)
                  (identifiedStyle s) (identifiedSubject s) (isLoading s) (loadingStatus s)
                  (error s) (generationAbortController s) in
  {| page := {| app := s'; log := log (page b) |};
     imageUrl := imageUrl b;
     localStorage := <[storageKey := newKey]> (localStorage b);
     reads := reads b |}.

(** The page's run handlers, lifted to the browser. *)
Definition clickGenerate (client : nat -> Args -> Reply) (b : Browser) : Browser :=
  {| page := snd (handleGeneratePrompts client (page b));
     imageUrl := imageUrl b; localStorage := localStorage b; reads := reads b |}.

(** The uploader is rendered with [onImageChange={handleImageChange}] and
    [disabled={isLoading}]: its effects reach the page through that one
    callback. *)
Definition applyEffect (b : Browser) (e : ImageUploader.Effect) : Browser :=
  match e with
  | ImageUploader.OnImageChange file => handleImageChange file b
  | _ => b
  end.

Definition dropFiles (files : option (list File)) (b : Browser) : Browser :=
  foldl applyEffect b (ImageUploader.handleDrop (isLoading (app (page b))) files).

Definition pickFiles (files : option (list File)) (b : Browser) : Browser :=
  foldl applyEffect b (ImageUploader.handleFileChange files).

Definition clearImage (b : Browser) : Browser :=
  foldl applyEffect b (ImageUploader.handleClearImage true).

(** A string cell used as a condition: [null] and the empty string are
    falsy. *)
Definition shown (cell : option string) : option string :=
  match cell with
  | Some text => if String.eqb text "" then None else Some text
  | None => None
  end.

(** [a || b] on strings. *)
Definition orElse (a b : string) : string := if String.eqb a "" then b else a.

(** The button under the form. *)
Inductive Button :=
| CancelButton (label : string)
| GenerateButton (disabled : bool).

(** What is rendered when there are prompts: the two chips, each only for a
    truthy label, and the list. *)
Record Results := mkResults {
  subjectChip : option string;
  styleChip : option string;
  listed : list string
}.

(** The conditional parts of the rendered page. *)
Record View := mkView {
  inputsDisabled : bool;
  button : Button;
  spinner : option string;
  errorText : option string;
  placeholder : bool;
  results : option Results
}.

Definition render (s : AppState) : View :=
  let noPrompts := Nat.eqb (length (prompts s)) 0 in
  {| inputsDisabled := isLoading s;
     button :=
       if isLoading s then CancelButton (orElse (loadingStatus s) "Generating...")
       else GenerateButton (negb (bool_decide (is_Some (imageFile s)))
                            || String.eqb (apiKey s) "");
     spinner :=
       if isLoading s && noPrompts
       then Some (orElse (loadingStatus s) "Analyzing image and crafting prompts...")
       else None;
     errorText := shown (error s);
     placeholder := negb (isLoading s) && negb (bool_decide (is_Some (shown (error s))))
                    && noPrompts;
     results :=
       if Nat.ltb 0 (length (prompts s))
       then Some {| subjectChip := shown (identifiedSubject s);
                    styleChip := shown (identifiedStyle s);
                    listed := prompts s |}
       else None |}.

End Page.

(** ** components/PromptList.tsx: the cards and the timers *)

Module PromptCards.

Import PromptList.

(** The copy button of card [index]: [onCopy(prompt)] with the card's own
    prompt, which the list turns into [handleCopy(text, index)]. *)
Definition clickCopy (prompts : list string) (index : nat) (w : World) : World :=
  match prompts !! index with
  | Some prompt => handleCopy prompt index w
  | None => w
  end.

(** What a due timer runs. *)
Definition run (cb : Callback) (s : State) : State :=
  match cb with
  | ClearCopiedIndex => {| copiedIndex := None; allCopied := allCopied s |}
  | ClearAllCopied => {| copiedIndex := copiedIndex s; allCopied := false |}
  end.

(** Timer number [k] comes due: its callback runs and the timer is gone. *)
Definition fire (k : nat) (w : World) : World :=
  match timers w !! k with
  | Some (cb, _) =>
      {| state := run cb (state w); clipboard := clipboard w; timers := delete k (timers w) |}
  | None => w
  end.

(** What can happen to the list of a fixed [prompts] property. *)
Inductive Action :=
| Copy (index : nat)
| CopyAll
| Due (k : nat).

Definition act (prompts : list string) (w : World) (a : Action) : World :=
  match a with
  | Copy index => clickCopy prompts index w
  | CopyAll => handleCopyAll prompts w
  | Due k => fire k w
  end.

(** The component as mounted. *)
Definition mounted : World :=
  {| state := {| copiedIndex := None; allCopied := false |}; clipboard := []; timers := [] |}.

(** [isCopied] of card [index]. *)
Definition isCopied (w : World) (index : nat) : bool :=
  bool_decide (copiedIndex (state w) = Some index).

End PromptCards.

(** ** Vocabulary of the further properties *)

Module MoreProps.

Import GeminiService App Props.

(** The requests sent and the files read among the effects of a call. *)
Definition requestsIn (io : list IO) : list (string * Request) :=
  omap (fun e => match e with NetworkRequest key req => Some (key, req) | _ => None end) io.

Definition readsIn (io : list IO) : list File :=
  omap (fun e => match e with ReadFile f => Some f | _ => None end) io.

Definition consoleIn (io : list IO) : list (string * string) :=
  omap (fun e => match e with ConsoleError msg detail => Some (msg, detail) | _ => None end) io.

(** A string without the given character. *)
Fixpoint free_of (c : ascii) (s : string) : Prop :=
  match s with
  | EmptyString => True
  | String c' rest => c' <> c /\ free_of c rest
  end.

(** What the [catch] and [finally] clauses log for a way of leaving the
    loop. *)
Definition finishEvents (x : Exit) : list Event :=
  match x with
  | Thrown e => ConsoleErr e :: (if isAbortError e then [] else [SetError (Some generic_failure)])
  | _ => []
  end ++ [SetIsLoading false; SetLoadingStatus ""].

(** The cells of the form: the image, the credential, the description and
    the target. *)
Definition inputs (s : AppState) : option File * string * string * Z :=
  (imageFile s, apiKey s, imageDescription s, promptCount s).

(** The progress text of a batch that brings the total to [m] of [N]. *)
Definition progress (m N : Z) : string :=
  "Generating " +:+ pretty m +:+ " of " +:+ pretty N +:+ "...".

(** The exclusion paragraph's first line, and the lines of all excluded
    prompts but the first. *)
Definition exclusionHeader : string :=
  "You have already generated the following prompts. Ensure the new prompts are unique and different from these:".

Definition bulleted (ps : list string) : string :=
  foldr (fun p rest => LF +:+ "- " +:+ p +:+ rest) "" ps.

(** The progress texts set in a log. *)
Definition statusesIn (evs : list Event) : list string :=
  omap (fun ev => match ev with SetLoadingStatus v => Some v | _ => None end) evs.

End MoreProps.

(** ** More sample inputs *)

Module MoreSamples.

Import GeminiService App Props Samples.

(** Brings back one prompt fewer than asked for. *)
Definition sparing : nat -> Args -> Reply :=
  fun _ a => {| outcome := Resolved (answer (Z.to_nat (count a) - 1)); cancelPressed := false |}.

(** A reader whose result has no comma. *)
Definition bare_reader : File -> Settled string :=
  fun _ => Resolved "blob".

(** The page as first opened over an empty storage. *)
Definition fresh : World := Page.page (Page.initial ∅).


(** Three prompts to list. *)
Definition three : list string := ["a cat"; "a dog"; "a fox"].

End MoreSamples.

(** ** Invariants of the copy marks and the clipboard *)

Module CardProps.

Import PromptList PromptCards.

(** The two marks are not up together, and the card mark is on a card. *)
Definition marks_ok (prompts : list string) (w : World) : Prop :=
  (allCopied (state w) = true -> copiedIndex (state w) = None)
  /\ (forall i, copiedIndex (state w) = Some i -> i < length prompts).

(** Every text written is a prompt or the numbered text of all of them. *)
Definition clipboard_ok (prompts : list string) (w : World) : Prop :=
  forall text, text ∈ clipboard w ->
    text ∈ prompts \/ text = join (LF +:+ LF) (imap numbered prompts).

End CardProps.

(** * Properties *)

(** ** The client: credential guard and response check *)

Section ClientFacts.

Import GeminiService Props.

Variable readAsDataURL : File -> Settled string.
Variable generateContent : string -> Request -> Settled string.
Variable JSON_parse : string -> option json.

Lemma structureOk_true_iff body : structureOk body = inr true <-> accepted body.
Proof.
  split.
  - destruct body as [| | | | |fields]; unfold structureOk; cbn [getProp];
      try discriminate.
    intros H. injection H as H.
    apply andb_prop in H as [H Hsu]. apply andb_prop in H as [H Hst].
    apply andb_prop in H as [_ Harr].
    destruct (fields !! "prompts") as [[| | | |items|]|] eqn:Hp; try discriminate.
    exists fields, items. auto.
  - intros (fields & items & -> & Hp & Hst & Hsu).
    unfold structureOk; cbn [getProp]. rewrite Hst, Hsu, Hp. reflexivity.
Qed.

Lemma tryDecode_inr text body :
  tryDecode JSON_parse text = inr body <-> JSON_parse text = Some body /\ accepted body.
Proof.
  unfold tryDecode. split.
  - destruct (JSON_parse text) as [j|]; [|discriminate].
    destruct (structureOk j) as [e|[]] eqn:Hok; try discriminate.
    intros [= ->]. split; [reflexivity | by apply structureOk_true_iff].
  - intros [-> Hacc]. apply structureOk_true_iff in Hacc. by rewrite Hacc.
Qed.

(** The [try]/[catch] has two outcomes only: the decoded object itself, or
    [couldNotParse]. *)
Lemma decodeResponse_cases text :
  (exists body, tryDecode JSON_parse text = inr body
                /\ decodeResponse JSON_parse text = ([], Resolved body))
  \/ (exists e, tryDecode JSON_parse text = inl e)
     /\ snd (decodeResponse JSON_parse text) = Rejected couldNotParse.
Proof.
  unfold decodeResponse. destruct (tryDecode JSON_parse text) as [e|body].
  - right. split; [by exists e | reflexivity].
  - left. by exists body.
Qed.

Lemma absent_not_accepted body k :
  k ∈ ["identifiedSubject"; "identifiedStyle"; "prompts"] ->
  ~ present body k -> ~ accepted body.
Proof.
  intros Hk Habs (fields & items & -> & Hp & Hst & Hsu). apply Habs.
  unfold present. cbn [getProp].
  assert (forall key, truthy (fields !! key) = true -> exists v, fields !! key = Some v)
    as Htr by (intros key; destruct (fields !! key); [eauto | discriminate]).
  set_unfold in Hk. destruct Hk as [->|[->|[->|[]]]].
  - destruct (Htr _ Hsu) as [v ->]. eauto.
  - destruct (Htr _ Hst) as [v ->]. eauto.
  - rewrite Hp. eauto.
Qed.

(** When the credential is there, the file is read and the model answers,
    the call settles as the decoding of the answer does. *)
Lemma generatePromptsFromImage_decodes imageFile apiKey count existing description url text :
  apiKey <> "" ->
  readAsDataURL imageFile = Resolved url ->
  generateContent apiKey
    (buildRequest imageFile (split "," url !! 1%nat) (default 5%Z count) existing description)
    = Resolved text ->
  snd (generatePromptsFromImage readAsDataURL generateContent JSON_parse
         imageFile apiKey count existing description)
  = snd (decodeResponse JSON_parse text).
Proof.
  intros Hkey Hread Hnet. unfold generatePromptsFromImage, fileToBase64.
  destruct (String.eqb_spec apiKey "") as [->|_]; [done|].
  rewrite Hread, Hnet. by destruct (decodeResponse JSON_parse text).
Qed.

(** C7, as amended: the client returns the decoded body, whole and
    unchanged, exactly when [prompts] is an array and [identifiedStyle] and
    [identifiedSubject] are present with a truthy value; in every other case,
    in particular when one of the three properties is absent, the call is
    rejected with the could-not-parse error. *)
Theorem C7_returns_iff_accepted imageFile apiKey count existing description url text body :
  apiKey <> "" ->
  readAsDataURL imageFile = Resolved url ->
  generateContent apiKey
    (buildRequest imageFile (split "," url !! 1%nat) (default 5%Z count) existing description)
    = Resolved text ->
  JSON_parse text = Some body ->
  let settled :=
    snd (generatePromptsFromImage readAsDataURL generateContent JSON_parse
           imageFile apiKey count existing description) in
  (settled = Resolved body <-> accepted body)
  /\ (forall r, settled = Resolved r -> r = body)
  /\ (~ accepted body -> settled = Rejected couldNotParse)
  /\ (forall k, k ∈ ["identifiedSubject"; "identifiedStyle"; "prompts"] ->
                ~ present body k -> settled = Rejected couldNotParse).
Proof.
  intros Hkey Hread Hnet Hparse settled.
  assert (settled = snd (decodeResponse JSON_parse text)) as Hs
    by (by eapply generatePromptsFromImage_decodes).
  assert (forall r, settled = Resolved r -> r = body /\ accepted body) as Hres.
  { intros r Hr. rewrite Hs in Hr.
    destruct (decodeResponse_cases text) as [(b & Hb & Heq)|[_ Heq]].
    - rewrite Heq in Hr. simpl in Hr. injection Hr as <-.
      apply tryDecode_inr in Hb as [Hb Hacc].
      assert (b = body) as -> by congruence. done.
    - rewrite Heq in Hr. discriminate. }
  assert (~ accepted body -> settled = Rejected couldNotParse) as Hrej.
  { intros Hna. rewrite Hs.
    destruct (decodeResponse_cases text) as [(b & Hb & Heq)|[_ Heq]]; [|done].
    apply tryDecode_inr in Hb as [Hb Hacc].
    assert (b = body) as -> by congruence. done. }
  repeat split.
  - intros Hr. by destruct (Hres _ Hr).
  - intros Hacc. rewrite Hs. unfold decodeResponse.
    by rewrite (proj2 (tryDecode_inr text body) (conj Hparse Hacc)).
  - intros r Hr. by destruct (Hres _ Hr).
  - done.
  - intros k Hk Habs. apply Hrej. by eapply absent_not_accepted.
Qed.

(** C8: with an empty credential the call is rejected with the missing-key
    error and has done nothing, neither read the file nor sent a request;
    with any other credential the guard is passed, the first thing done
    being the reading of the file. *)
Theorem C8_empty_credential_fails_first imageFile count existing description :
  generatePromptsFromImage readAsDataURL generateContent JSON_parse
    imageFile "" count existing description = ([], Rejected missingKey)
  /\ forall apiKey, apiKey <> "" ->
       exists io settled,
         generatePromptsFromImage readAsDataURL generateContent JSON_parse
           imageFile apiKey count existing description = (ReadFile imageFile :: io, settled).
Proof.
  split; [reflexivity|].
  intros apiKey Hkey. unfold generatePromptsFromImage.
  destruct (String.eqb_spec apiKey "") as [->|_]; [done|].
  destruct (fileToBase64 readAsDataURL imageFile) as [b64|e]; [|by eauto].
  destruct (generateContent apiKey _) as [text|e]; [|by eauto].
  destruct (decodeResponse JSON_parse text) as [io s]. simpl. eauto.
Qed.

End ClientFacts.

(** ** The generation loop *)

Section RunFacts.

Import GeminiService App Props.

Variable client : nat -> Args -> Reply.
Variable file : File.
Variable key : string.
Variable N : Z.
Variable descr : string.

Local Abbreviation Body := (body client file key N descr).
Local Abbreviation Loop := (forLoop client file key N descr).
Local Abbreviation args_of := (nextArgs file key N descr).

Lemma calls_app evs1 evs2 : calls (evs1 ++ evs2) = calls evs1 ++ calls evs2.
Proof. apply omap_app. Qed.

Lemma labelEvents_app evs1 evs2 :
  labelEvents (evs1 ++ evs2) = labelEvents evs1 ++ labelEvents evs2.
Proof. apply omap_app. Qed.

Lemma errorsShown_app evs1 evs2 :
  errorsShown (evs1 ++ evs2) = errorsShown evs1 ++ errorsShown evs2.
Proof. apply omap_app. Qed.

(** What one pass through the loop body does, case by case: how it leaves
    the loop or continues, what it logs and which state cells it touches. *)
Lemma body_spec_ex l w :
  exists evs,
    log (snd (Body l w)) = log w ++ evs /\
    let w' := snd (Body l w) in
    let a := args_of l in
    let pressed := cancelPressed (client (i l) a) in
    match fst (Body l w) with
    | Stop Completed _ => False
    | Stop BreakAborted l' =>
        raised w = true /\ l' = l /\ app w' = app w
        /\ evs = [ConsoleLog "Generation aborted by user."]
    | Stop BreakNothingLeft l' =>
        raised w = false /\ (count a <= 0)%Z /\ l' = l /\ w' = w /\ evs = []
    | Stop (Thrown e) l' =>
        raised w = false /\ (0 < count a)%Z
        /\ outcome (client (i l) a) = Rejected e /\ l' = l
        /\ calls evs = [(i l, a)] /\ labelEvents evs = [] /\ errorsShown evs = []
        /\ prompts (app w') = prompts (app w)
        /\ error (app w') = error (app w)
        /\ identifiedStyle (app w') = identifiedStyle (app w)
        /\ identifiedSubject (app w') = identifiedSubject (app w)
        /\ generationAbortController (app w')
           = (if pressed then cancelled (generationAbortController (app w))
              else generationAbortController (app w))
    | Next l' =>
        exists r,
          raised w = false /\ (0 < count a)%Z
          /\ outcome (client (i l) a) = Resolved r
          /\ l' = {| i := S (i l);
                     accumulatedPrompts := accumulatedPrompts l ++ GeminiService.prompts r |}
          /\ calls evs = [(i l, a)] /\ errorsShown evs = []
          /\ labelEvents evs
             = (if Nat.eqb (i l) 0
                then [SetIdentifiedStyle (Some (GeminiService.identifiedStyle r));
                      SetIdentifiedSubject (Some (GeminiService.identifiedSubject r))]
                else [])
          /\ prompts (app w') = prompts (app w) ++ GeminiService.prompts r
          /\ error (app w') = error (app w)
          /\ identifiedStyle (app w')
             = (if Nat.eqb (i l) 0 then Some (GeminiService.identifiedStyle r)
                else identifiedStyle (app w))
          /\ identifiedSubject (app w')
             = (if Nat.eqb (i l) 0 then Some (GeminiService.identifiedSubject r)
                else identifiedSubject (app w))
          /\ generationAbortController (app w')
             = (if pressed then cancelled (generationAbortController (app w))
                else generationAbortController (app w))
          /\ exists status,
               evs = [SetLoadingStatus status; Call (i l) a]
                     ++ (if pressed
                         then from_option (fun _ => [Abort]) []
                                (generationAbortController (app w))
                              ++ [SetIsLoading false; SetLoadingStatus ""]
                         else [])
                     ++ labelsFrom (if Nat.eqb (i l) 0 then Some r else None)
                     ++ [SetPrompts (prompts (app w) ++ GeminiService.prompts r)]
    end.
Proof.
  destruct (Body l w) as [c w'] eqn:Hb. cbn [fst snd]. revert Hb.
  unfold body, await_call, handleCancel, get, nextArgs, raised.
  unfold setLoadingStatus, setIsLoading, setController, setPrompts, setIdentifiedStyle,
    setIdentifiedSubject, emit, update.
  unfold mbind, M_bind, mret, M_ret, signal_aborted.
  generalize (@pretty Z _). intros show.
  destruct (from_option aborted false (generationAbortController (app w))) eqn:Hsig.
  { intros [= <- <-]. eexists. split; [reflexivity|]. by cbn. }
  destruct (Z.min 5 (N - Z.of_nat (length (accumulatedPrompts l))) <=? 0)%Z eqn:Hsz.
  { intros [= <- <-]. exists []. split; [by rewrite app_nil_r|].
    cbn. repeat split; try done. lia. }
  apply Z.leb_gt in Hsz.
  set (a := mkArgs _ _ _ _ _).
  destruct (client (i l) a) as [out pressed] eqn:Hrep.
  cbn [cancelPressed outcome].
  destruct pressed, out as [r|e], (generationAbortController (app w)) as [ctl|] eqn:Hc,
    (Nat.eqb (i l) 0) eqn:Hi;
    cbn -[String.append]; intros [= <- <-]; cbn -[String.append];
    (eexists; split; [rewrite <- ?app_assoc; reflexivity|]);
    try (exists r); repeat split; try done; try (eexists; reflexivity).
Qed.

Lemma events_of_eq {A : Type} (m : M A) w evs :
  log (snd (m w)) = log w ++ evs -> events_of m w = evs.
Proof. intros H. unfold events_of. rewrite H. apply drop_app_length. Qed.

Lemma body_log l w : log (snd (Body l w)) = log w ++ events_of (Body l) w.
Proof.
  destruct (body_spec_ex l w) as (evs & Hlog & _).
  by rewrite (events_of_eq _ _ _ Hlog).
Qed.

Lemma forLoop_S n l w :
  Loop (S n) l w
  = match Body l w with
    | (Next l1, w1) => Loop n l1 w1
    | (Stop x l1, w1) => ((x, l1), w1)
    end.
Proof.
  cbn [forLoop]. unfold mbind, M_bind.
  by destruct (Body l w) as [[l1|x l1] w1].
Qed.

Lemma forLoop_log n l w : log (snd (Loop n l w)) = log w ++ events_of (Loop n l) w.
Proof.
  revert l w. induction n as [|n IH]; intros l w.
  - symmetry. rewrite (events_of_eq (Loop 0 l) w []); by rewrite app_nil_r.
  - assert (exists evs, log (snd (Loop (S n) l w)) = log w ++ evs) as [evs Hevs].
    { rewrite forLoop_S. pose proof (body_log l w) as Hb.
      destruct (Body l w) as [[l1|x l1] w1]; cbn [snd] in *.
      - rewrite IH, Hb, <- app_assoc. eauto.
      - eauto. }
    by rewrite (events_of_eq _ _ _ Hevs).
Qed.

Lemma events_of_forLoop_0 l w : events_of (Loop 0 l) w = [].
Proof. apply events_of_eq. by rewrite app_nil_r. Qed.

Lemma events_of_forLoop_next n l w l1 w1 :
  Body l w = (Next l1, w1) ->
  events_of (Loop (S n) l) w = events_of (Body l) w ++ events_of (Loop n l1) w1.
Proof.
  intros Hb. apply events_of_eq. rewrite forLoop_S, Hb, forLoop_log.
  pose proof (body_log l w) as Hl. rewrite Hb in Hl. cbn [snd] in Hl.
  by rewrite Hl, <- app_assoc.
Qed.

Lemma events_of_forLoop_stop n l w x l1 w1 :
  Body l w = (Stop x l1, w1) ->
  events_of (Loop (S n) l) w = events_of (Body l) w.
Proof.
  intros Hb. apply events_of_eq. rewrite forLoop_S, Hb.
  pose proof (body_log l w) as Hl. by rewrite Hb in Hl.
Qed.


(** Takes the case description of one pass, stated about the events the
    pass adds. *)
Ltac pass l w H :=
  let evs := fresh "evs" in
  let Hlog := fresh "Hlog" in
  destruct (body_spec_ex l w) as (evs & Hlog & H);
  apply events_of_eq in Hlog; subst evs; cbn zeta in H.

(** Once the signal is raised the loop does nothing but leave. *)
Lemma forLoop_raised n l w :
  raised w = true ->
  calls (events_of (Loop n l) w) = []
  /\ labelEvents (events_of (Loop n l) w) = []
  /\ errorsShown (events_of (Loop n l) w) = []
  /\ app (snd (Loop n l w)) = app w
  /\ fst (Loop n l w) = (match n with O => Completed | S _ => BreakAborted end, l).
Proof.
  intros Hr. destruct n as [|n].
  - by rewrite events_of_forLoop_0.
  - pass l w H. rewrite forLoop_S.
    destruct (Body l w) as [[l1|x l1] w1] eqn:Hb; cbn [fst snd] in H.
    + destruct H as (r & Hf & _). congruence.
    + rewrite (events_of_forLoop_stop _ _ _ _ _ _ Hb).
      destruct x as [| | |e]; [done| |destruct H; congruence|destruct H; congruence].
      destruct H as (_ & -> & Happ & ->). done.
Qed.


Lemma calls_forLoop_next n l w l1 w1 :
  Body l w = (Next l1, w1) ->
  calls (events_of (Loop (S n) l) w) = (i l, args_of l) :: calls (events_of (Loop n l1) w1).
Proof.
  intros Hb. pass l w H. rewrite Hb in H. cbn [fst snd] in H.
  destruct H as (r & _ & _ & _ & _ & Hcalls & _).
  by rewrite (events_of_forLoop_next _ _ _ _ _ Hb), calls_app, Hcalls.
Qed.

Lemma brought_resolved b a r :
  outcome (client b a) = Resolved r -> brought client (b, a) = GeminiService.prompts r.
Proof. unfold brought. cbn [fst snd]. by intros ->. Qed.

Lemma brought_rejected b a e :
  outcome (client b a) = Rejected e -> brought client (b, a) = [].
Proof. unfold brought. cbn [fst snd]. by intros ->. Qed.

Lemma delivered_cons c cs : delivered client (c :: cs) = brought client c ++ delivered client cs.
Proof. reflexivity. Qed.

Lemma delivered_snoc_rejected cs c e :
  outcome (client (fst c) (snd c)) = Rejected e ->
  delivered client (cs ++ [c]) = delivered client cs.
Proof.
  intros Hout. unfold delivered. rewrite map_app, concat_app.
  destruct c as [b a]. cbn [fst snd] in Hout. cbn [map concat].
  by rewrite (brought_rejected _ _ _ Hout), !app_nil_r.
Qed.

(** The accumulated list and the displayed list both grow by exactly what
    the calls of the loop brought back. *)
Lemma forLoop_delivered n l w :
  let cs := calls (events_of (Loop n l) w) in
  accumulatedPrompts (snd (fst (Loop n l w))) = accumulatedPrompts l ++ delivered client cs
  /\ prompts (app (snd (Loop n l w))) = prompts (app w) ++ delivered client cs.
Proof.
  revert l w. induction n as [|n IH]; intros l w; cbn zeta.
  - rewrite events_of_forLoop_0. cbn. by rewrite !app_nil_r.
  - pass l w H. rewrite forLoop_S.
    destruct (Body l w) as [[l1|x l1] w1] eqn:Hb; cbn [fst snd] in H.
    + destruct H as (r & _ & _ & Hout & -> & Hcalls & _ & _ & Hprompts & _).
      rewrite (calls_forLoop_next _ _ _ _ _ Hb).
      destruct (IH (mkLocals (S (i l)) (accumulatedPrompts l ++ GeminiService.prompts r)) w1)
        as [IHa IHp].
      rewrite IHa, IHp, Hprompts. cbn [accumulatedPrompts]. rewrite delivered_cons.
      rewrite (brought_resolved _ _ _ Hout). by rewrite <- !app_assoc.
    + rewrite (events_of_forLoop_stop _ _ _ _ _ _ Hb). cbn [fst snd].
      destruct x as [| | |e]; [done| | |].
      * destruct H as (_ & -> & -> & ->). cbn. by rewrite !app_nil_r.
      * destruct H as (_ & _ & -> & -> & ->). cbn. by rewrite !app_nil_r.
      * destruct H as (_ & _ & Hout & -> & -> & _ & _ & -> & _).
        rewrite delivered_cons, (brought_rejected _ _ _ Hout). cbn. by rewrite !app_nil_r.
Qed.

(** Call number [k] of the loop is batch [i + k], and its arguments are the
    ones computed from what the calls before it brought back. *)
Lemma forLoop_args n l w k c :
  calls (events_of (Loop n l) w) !! k = Some c ->
  c = (i l + k,
       args_of {| i := i l + k;
                  accumulatedPrompts :=
                    accumulatedPrompts l
                    ++ delivered client (take k (calls (events_of (Loop n l) w))) |}).
Proof.
  revert l w k. induction n as [|n IH]; intros l w k.
  - by rewrite events_of_forLoop_0.
  - pass l w H.
    assert ({| i := i l + 0;
               accumulatedPrompts := accumulatedPrompts l ++ delivered client [] |} = l) as Hl0
      by (destruct l; cbn; by rewrite Nat.add_0_r, app_nil_r).
    destruct (Body l w) as [[l1|x l1] w1] eqn:Hb; cbn [fst snd] in H.
    + destruct H as (r & _ & _ & Hout & -> & Hcalls & _).
      rewrite (calls_forLoop_next _ _ _ _ _ Hb).
      destruct k as [|k]; cbn [lookup list_lookup take].
      * intros [= <-]. by rewrite Hl0, Nat.add_0_r.
      * intros Hk. apply IH in Hk. rewrite Hk. cbn [i accumulatedPrompts].
        rewrite delivered_cons, (brought_resolved _ _ _ Hout).
        by rewrite <- !app_assoc, !Nat.add_succ_r.
    + rewrite (events_of_forLoop_stop _ _ _ _ _ _ Hb).
      destruct x as [| | |e]; [done| | |].
      * by destruct H as (_ & _ & _ & ->).
      * by destruct H as (_ & _ & _ & _ & ->).
      * destruct H as (_ & _ & _ & _ & -> & _).
        destruct k as [|k]; [|done]. cbn [lookup list_lookup take].
        intros [= <-]. by rewrite Hl0, Nat.add_0_r.
Qed.

(** A rejected call is the last call, and the loop is left by the error it
    was rejected with; otherwise every call was answered with a result. *)
Lemma forLoop_failure n l w :
  let cs := calls (events_of (Loop n l) w) in
  match fst (fst (Loop n l w)) with
  | Thrown e =>
      exists cs0 c, cs = cs0 ++ [c]
                    /\ outcome (client (fst c) (snd c)) = Rejected e
                    /\ Forall (resolved client) cs0
  | _ => Forall (resolved client) cs
  end.
Proof.
  revert l w. induction n as [|n IH]; intros l w; cbn zeta.
  - rewrite events_of_forLoop_0. cbn. constructor.
  - pass l w H. rewrite forLoop_S.
    destruct (Body l w) as [[l1|x l1] w1] eqn:Hb; cbn [fst snd] in H.
    + destruct H as (r & _ & _ & Hout & -> & Hcalls & _).
      rewrite (calls_forLoop_next _ _ _ _ _ Hb).
      assert (resolved client (i l, args_of l)) as Hres by (by exists r).
      specialize (IH (mkLocals (S (i l)) (accumulatedPrompts l ++ GeminiService.prompts r)) w1).
      cbn zeta in IH.
      destruct (fst (fst (Loop n _ w1))) as [| | |e].
      1-3: by constructor.
      destruct IH as (cs0 & c & -> & Hc & Hall).
      exists ((i l, args_of l) :: cs0), c. repeat split; [done|by constructor].
    + rewrite (events_of_forLoop_stop _ _ _ _ _ _ Hb). cbn [fst snd].
      destruct x as [| | |e]; [done| | |].
      * destruct H as (_ & _ & _ & ->). constructor.
      * destruct H as (_ & _ & _ & _ & ->). constructor.
      * destruct H as (_ & _ & Hout & _ & -> & _).
        exists [], (i l, args_of l). repeat split; [done|constructor].
Qed.

(** The loop itself shows no error message. *)
Lemma forLoop_errors n l w :
  errorsShown (events_of (Loop n l) w) = []
  /\ error (app (snd (Loop n l w))) = error (app w).
Proof.
  revert l w. induction n as [|n IH]; intros l w.
  - by rewrite events_of_forLoop_0.
  - pass l w H. rewrite forLoop_S.
    destruct (Body l w) as [[l1|x l1] w1] eqn:Hb; cbn [fst snd] in H.
    + destruct H as (r & _ & _ & _ & -> & _ & Herr & _ & _ & Herror & _).
      rewrite (events_of_forLoop_next _ _ _ _ _ Hb), errorsShown_app, Herr.
      destruct (IH (mkLocals (S (i l)) (accumulatedPrompts l ++ GeminiService.prompts r)) w1)
        as [-> ->]. done.
    + rewrite (events_of_forLoop_stop _ _ _ _ _ _ Hb). cbn [fst snd].
      destruct x as [| | |e]; [done| | |].
      * by destruct H as (_ & _ & -> & ->).
      * by destruct H as (_ & _ & _ & -> & ->).
      * by destruct H as (_ & _ & _ & _ & _ & _ & -> & _ & -> & _).
Qed.

(** After the first batch the two labels are never assigned again. *)
Lemma forLoop_labels_later n l w :
  i l <> 0 ->
  labelEvents (events_of (Loop n l) w) = []
  /\ identifiedStyle (app (snd (Loop n l w))) = identifiedStyle (app w)
  /\ identifiedSubject (app (snd (Loop n l w))) = identifiedSubject (app w).
Proof.
  revert l w. induction n as [|n IH]; intros l w Hi.
  - by rewrite events_of_forLoop_0.
  - pass l w H. rewrite forLoop_S.
    apply Nat.eqb_neq in Hi. rewrite Hi in H.
    destruct (Body l w) as [[l1|x l1] w1] eqn:Hb; cbn [fst snd] in H.
    + destruct H as (r & _ & _ & _ & -> & _ & _ & Hlab & _ & _ & Hst & Hsu & _).
      rewrite (events_of_forLoop_next _ _ _ _ _ Hb), labelEvents_app, Hlab.
      destruct (IH (mkLocals (S (i l)) (accumulatedPrompts l ++ GeminiService.prompts r)) w1)
        as (-> & -> & ->); [done|]. done.
    + rewrite (events_of_forLoop_stop _ _ _ _ _ _ Hb). cbn [fst snd].
      destruct x as [| | |e]; [done| | |].
      * by destruct H as (_ & _ & -> & ->).
      * by destruct H as (_ & _ & _ & -> & ->).
      * by destruct H as (_ & _ & _ & _ & _ & -> & _ & _ & _ & -> & -> & _).
Qed.



Lemma Math_ceil_div_spec a b :
  (0 < b)%Z -> (b * (Math_ceil_div a b - 1) < a <= b * Math_ceil_div a b)%Z.
Proof.
  intros Hb. unfold Math_ceil_div.
  pose proof (Z.div_mod (- a) b) as Hdm.
  pose proof (Z.mod_pos_bound (- a) b Hb) as Hm. nia.
Qed.

(** When the client never brings back more than it was asked for, the
    accumulated list never grows beyond the target. *)
Lemma forLoop_bound n l w :
  (forall b a r, (0 < count a)%Z -> outcome (client b a) = Resolved r ->
                 (Z.of_nat (length (GeminiService.prompts r)) <= count a)%Z) ->
  (Z.of_nat (length (accumulatedPrompts l)) <= N)%Z ->
  (Z.of_nat (length (accumulatedPrompts (snd (fst (Loop n l w))))) <= N)%Z.
Proof.
  intros Hclient. revert l w. induction n as [|n IH]; intros l w Hl; [done|].
  pass l w H. rewrite forLoop_S.
  destruct (Body l w) as [[l1|x l1] w1] eqn:Hb; cbn [fst snd] in H.
  - destruct H as (r & _ & Hpos & Hout & -> & _). apply IH.
    apply Hclient in Hout; [|done]. cbn in *. rewrite length_app. lia.
  - cbn [fst snd]. destruct x as [| | |e]; [done| | |].
    + by destruct H as (_ & -> & _).
    + by destruct H as (_ & _ & -> & _).
    + by destruct H as (_ & _ & _ & -> & _).
Qed.

(** When every call is answered with exactly what was asked for and Cancel
    is never pressed, the loop runs to its bound: after [k] further passes
    the accumulated list holds [min N (5 (i + k))] prompts, [N] at the end. *)
Lemma forLoop_exact n l w :
  (forall b a, (0 < count a)%Z ->
     exists r, client b a = {| outcome := Resolved r; cancelPressed := false |}
               /\ Z.of_nat (length (GeminiService.prompts r)) = count a) ->
  (0 <= N)%Z ->
  raised w = false ->
  Z.of_nat (length (accumulatedPrompts l)) = Z.min N (5 * Z.of_nat (i l)) ->
  Z.of_nat (i l + n) = Math_ceil_div N 5 ->
  let cs := calls (events_of (Loop n l) w) in
  fst (fst (Loop n l w)) = Completed
  /\ Z.of_nat (length (accumulatedPrompts (snd (fst (Loop n l w))))) = N
  /\ length cs = n
  /\ forall k, k <= n ->
        Z.of_nat (length (accumulatedPrompts l ++ delivered client (take k cs)))
        = Z.min N (5 * Z.of_nat (i l + k)).
Proof.
  intros Hclient HN. revert l w.
  pose proof (Math_ceil_div_spec N 5 ltac:(lia)) as Hceil.
  induction n as [|n IH]; intros l w Hraised Hlen Htotal; cbn zeta.
  - rewrite events_of_forLoop_0. cbn. repeat split; [lia|].
    intros k Hk. assert (k = 0) as -> by lia. cbn. by rewrite app_nil_r, Nat.add_0_r.
  - pass l w H. rewrite forLoop_S.
    assert (count (args_of l) = Z.min 5 (N - 5 * Z.of_nat (i l))) as Hcount
      by (cbn; lia).
    assert (0 < count (args_of l))%Z as Hpos by lia.
    destruct (Hclient (i l) (args_of l) Hpos) as (r0 & Hreply & Hexact).
    destruct (Body l w) as [[l1|x l1] w1] eqn:Hb; cbn [fst snd] in H.
    + destruct H as (r & _ & _ & Hout & -> & _ & _ & _ & _ & _ & _ & _ & Hc & _).
      rewrite Hreply in Hout, Hc. cbn in Hout, Hc. injection Hout as <-.
      rewrite (calls_forLoop_next _ _ _ _ _ Hb).
      destruct (IH (mkLocals (S (i l)) (accumulatedPrompts l ++ GeminiService.prompts r0)) w1)
        as (IH1 & IH2 & IH3 & IH4).
      * unfold raised in *. by rewrite Hc.
      * cbn. rewrite length_app. lia.
      * cbn. lia.
      * repeat split; [done|done|by rewrite length_cons, IH3|].
        intros [|k] Hk; cbn [take].
        -- cbn. by rewrite app_nil_r, Nat.add_0_r.
        -- rewrite delivered_cons, (brought_resolved (i l) (args_of l) r0), app_assoc.
           ++ rewrite IH4 by lia. cbn [i]. f_equal. lia.
           ++ by rewrite Hreply.
    + exfalso. rewrite Hreply in H. cbn [outcome] in H.
      destruct x as [| | |e]; [done| | |].
      * destruct H as (Hr & _). congruence.
      * destruct H as (_ & Hle & _). lia.
      * destruct H as (_ & _ & Hout & _). discriminate.
Qed.


(** The first pass decides the labels: they are assigned when the first
    call is answered with a result, and not otherwise. *)
Lemma forLoop_labels_start n w :
  raised w = false ->
  let first := firstResult client file key N descr in
  let w' := snd (Loop (S n) start w) in
  labelEvents (events_of (Loop (S n) start) w) = labelsFrom first
  /\ identifiedStyle (app w')
     = from_option (fun r => Some (GeminiService.identifiedStyle r)) (identifiedStyle (app w)) first
  /\ identifiedSubject (app w')
     = from_option (fun r => Some (GeminiService.identifiedSubject r))
         (identifiedSubject (app w)) first.
Proof.
  intros Hraised. cbn zeta. unfold firstResult. pass start w H. rewrite forLoop_S.
  assert (count (args_of start) = Z.min 5 N) as Hcount by (cbn; f_equal; lia).
  rewrite Hcount in H. change (i start) with 0 in H.
  change (accumulatedPrompts start) with (@nil string) in H.
  destruct (Body start w) as [[l1|x l1] w1] eqn:Hb; cbn [fst snd] in H.
  - destruct H as (r & _ & Hpos & Hout & -> & _ & _ & Hlab & _ & _ & Hst & Hsu & _).
    rewrite (events_of_forLoop_next _ _ _ _ _ Hb), labelEvents_app, Hlab, Hout.
    destruct (forLoop_labels_later n (mkLocals 1 ([] ++ GeminiService.prompts r)) w1)
      as (-> & -> & ->); [done|].
    rewrite Hst, Hsu. assert ((0 <? N)%Z = true) as -> by lia. done.
  - rewrite (events_of_forLoop_stop _ _ _ _ _ _ Hb). cbn [fst snd].
    destruct x as [| | |e]; [done| | |].
    + destruct H as (Hr & _). congruence.
    + destruct H as (_ & Hle & _ & -> & ->).
      assert ((0 <? N)%Z = false) as -> by lia. done.
    + destruct H as (_ & Hpos & Hout & _ & _ & -> & _ & _ & _ & -> & -> & _).
      rewrite Hout. by destruct (0 <? N)%Z.
Qed.

(** The body never leaves the loop as if its bound were reached, so the
    states of a shorter loop are the intermediate states of a longer one. *)
Lemma forLoop_prefix n m l w :
  Loop (n + m) l w
  = match Loop n l w with
    | ((Completed, l'), w') => Loop m l' w'
    | stopped => stopped
    end.
Proof.
  revert l w. induction n as [|n IH]; intros l w; [done|].
  cbn [Nat.add]. rewrite !forLoop_S. pass l w H.
  destruct (Body l w) as [[l1|x l1] w1]; cbn [fst snd] in H; [apply IH|].
  by destruct x.
Qed.

Local Abbreviation Try := (tryBlock client file key N descr).
Local Abbreviation Generate := (generate client file key N descr).

Lemma resetRun_spec w :
  log (snd (resetRun w)) = log w ++ resetEvents
  /\ generationAbortController (app (snd (resetRun w))) = Some {| aborted := false |}
  /\ prompts (app (snd (resetRun w))) = []
  /\ error (app (snd (resetRun w))) = None
  /\ identifiedStyle (app (snd (resetRun w))) = None
  /\ identifiedSubject (app (snd (resetRun w))) = None.
Proof.
  destruct w as [s evs]. cbv -[List.app]. by rewrite <- !app_assoc.
Qed.

(** The [catch] and [finally] clauses: the one place where a run shows an
    error message, and only for a rejection that is not an abort. *)
Lemma finish_spec x w :
  let w' := snd ((catchClause x ;; finallyClause) w) in
  let shown :=
    match x with
    | Thrown e => if isAbortError e then [] else [generic_failure]
    | _ => []
    end in
  exists evs,
    log w' = log w ++ evs
    /\ calls evs = [] /\ labelEvents evs = [] /\ errorsShown evs = shown
    /\ error (app w') = (match shown with [] => error (app w) | msg :: _ => Some msg end)
    /\ prompts (app w') = prompts (app w)
    /\ identifiedStyle (app w') = identifiedStyle (app w)
    /\ identifiedSubject (app w') = identifiedSubject (app w).
Proof.
  destruct w as [s evs0]. unfold isAbortError, catchClause.
  destruct x as [| | |e]; [| | |destruct (String.eqb (name e) "AbortError")];
    cbv -[List.app generic_failure];
    (eexists; split; [rewrite <- ?app_assoc; reflexivity|]); done.
Qed.

Lemma generate_eq w :
  Generate w
  = (fst (Try (snd (resetRun w))),
     snd ((catchClause (fst (fst (Try (snd (resetRun w))))) ;; finallyClause)
            (snd (Try (snd (resetRun w)))))).
Proof.
  unfold generate. unfold mbind at 1 2 3 4, M_bind, mret, M_ret.
  destruct (resetRun w) as [[] w0]. cbn [snd].
  destruct (Try w0) as [r w1]. cbn [fst snd].
  unfold mbind at 1, M_bind.
  destruct (catchClause (fst r) w1) as [[] w2].
  by destruct (finallyClause w2) as [[] w3].
Qed.

Lemma tryBlock_eq : Try = Loop (Z.to_nat (Math_ceil_div N 5)) start.
Proof. reflexivity. Qed.

Lemma tryBlock_log w : log (snd (Try w)) = log w ++ events_of Try w.
Proof. apply forLoop_log. Qed.

(** A run, put together: the reset, the loop, then the [catch] and [finally]
    clauses, which add no call and no label assignment. *)
Lemma generate_spec w :
  let r := Try (snd (resetRun w)) in
  let w' := snd (Generate w) in
  let shown :=
    match fst (fst r) with
    | Thrown e => if isAbortError e then [] else [generic_failure]
    | _ => []
    end in
  fst (Generate w) = fst r
  /\ exists evs,
       events_of Generate w = resetEvents ++ events_of Try (snd (resetRun w)) ++ evs
       /\ calls evs = [] /\ labelEvents evs = [] /\ errorsShown evs = shown
       /\ error (app w') = (match shown with [] => error (app (snd r)) | msg :: _ => Some msg end)
       /\ prompts (app w') = prompts (app (snd r))
       /\ identifiedStyle (app w') = identifiedStyle (app (snd r))
       /\ identifiedSubject (app w') = identifiedSubject (app (snd r)).
Proof.
  cbn zeta. rewrite generate_eq. cbn [fst snd]. split; [done|].
  destruct (finish_spec (fst (fst (Try (snd (resetRun w))))) (snd (Try (snd (resetRun w)))))
    as (evs & Hlog & Hrest).
  exists evs. split; [|done].
  apply events_of_eq. rewrite generate_eq. cbn [snd].
  destruct (resetRun_spec w) as (Hreset & _).
  by rewrite Hlog, tryBlock_log, Hreset, <- !app_assoc.
Qed.

Lemma generate_calls w :
  calls (events_of Generate w) = calls (events_of Try (snd (resetRun w))).
Proof.
  destruct (generate_spec w) as (_ & evs & -> & Hcalls & _).
  rewrite !calls_app, Hcalls. cbn. by rewrite app_nil_r.
Qed.

End RunFacts.

(** ** The handler *)

Section HandlerFacts.

Import GeminiService App Props.

Variable client : nat -> Args -> Reply.

Local Abbreviation Handle := (handleGeneratePrompts client).

Lemma handle_ready w file :
  ready w file ->
  Handle w
  = (Some (fst (generate client file (apiKey (app w)) (promptCount (app w))
                  (imageDescription (app w)) w)),
     snd (generate client file (apiKey (app w)) (promptCount (app w))
            (imageDescription (app w)) w)).
Proof.
  intros [Hfile Hkey]. unfold handleGeneratePrompts, get.
  unfold mbind at 1, M_bind. rewrite Hfile.
  destruct (String.eqb_spec (apiKey (app w)) "") as [?|_]; [done|].
  unfold mbind, M_bind, mret, M_ret. by destruct (generate _ _ _ _ _ w).
Qed.

Lemma handle_events w file :
  ready w file ->
  events_of Handle w
  = events_of (generate client file (apiKey (app w)) (promptCount (app w))
                 (imageDescription (app w))) w.
Proof. intros Hready. unfold events_of. by rewrite (handle_ready _ _ Hready). Qed.

Lemma handle_no_image w :
  imageFile (app w) = None ->
  Handle w = (None, snd (setError (Some "Please upload an image first.") w)).
Proof.
  intros Hfile. unfold handleGeneratePrompts, get. unfold mbind at 1, M_bind.
  by rewrite Hfile.
Qed.

Lemma handle_no_key w file :
  imageFile (app w) = Some file -> apiKey (app w) = "" ->
  Handle w = (None, snd (setError (Some "Please enter your Google Gemini API key.") w)).
Proof.
  intros Hfile Hkey. unfold handleGeneratePrompts, get. unfold mbind at 1, M_bind.
  by rewrite Hfile, Hkey.
Qed.

(** Either the run starts, or a guard returns and no call is made. *)
Lemma handle_cases w :
  (exists file, ready w file)
  \/ (fst (Handle w) = None /\ calls (events_of Handle w) = []).
Proof.
  assert (forall v, calls (drop (length (log w)) (log (snd (setError v w)))) = []) as Hguard
    by (intros v; cbn; by rewrite drop_app_length).
  destruct (imageFile (app w)) as [file|] eqn:Hfile.
  - destruct (String.eqb_spec (apiKey (app w)) "") as [Hkey|Hkey].
    + right. unfold events_of. rewrite (handle_no_key _ _ Hfile Hkey).
      split; [done | apply Hguard].
    + left. by exists file.
  - right. unfold events_of. rewrite (handle_no_image _ Hfile).
    split; [done | apply Hguard].
Qed.

(** C1: for a target of 5, 10, ..., 50, when no Cancel is pressed and every
    call is answered with exactly the number of prompts asked for, the run
    issues [ceil (N / 5)] calls, call [k] being batch [k] and asking for
    [min 5 (N - accumulated.length)] prompts, the accumulated list being at
    that time what the earlier calls brought back ([5 k] prompts), and the
    loop runs to its bound with [N] prompts accumulated. *)
Theorem C1_exact_batches w file :
  ready w file ->
  In (promptCount (app w)) [5; 10; 15; 20; 25; 30; 35; 40; 45; 50]%Z ->
  (forall b a, (0 < count a)%Z ->
     exists r, client b a = {| outcome := Resolved r; cancelPressed := false |}
               /\ Z.of_nat (length (GeminiService.prompts r)) = count a) ->
  let N := promptCount (app w) in
  let cs := calls (events_of Handle w) in
  exists l,
    fst (Handle w) = Some (Completed, l)
    /\ Z.of_nat (length (accumulatedPrompts l)) = N
    /\ Z.of_nat (length cs) = Math_ceil_div N 5
    /\ forall k b a, cs !! k = Some (b, a) ->
          b = k
          /\ count a = Z.min 5 (N - Z.of_nat (length (delivered client (take k cs))))
          /\ Z.of_nat (length (delivered client (take k cs))) = (5 * Z.of_nat k)%Z.
Proof.
  intros Hready HN Hclient. cbn zeta.
  rewrite (handle_events _ _ Hready), (handle_ready _ _ Hready). cbn [fst].
  rewrite generate_calls.
  destruct (generate_spec client file (apiKey (app w)) (promptCount (app w))
              (imageDescription (app w)) w) as (-> & _).
  destruct (resetRun_spec w) as (_ & Hctl & _).
  rewrite !tryBlock_eq.
  set (N := promptCount (app w)) in *.
  set (w0 := snd (resetRun w)) in *.
  set (key := apiKey (app w)). set (descr := imageDescription (app w)).
  set (n := Z.to_nat (Math_ceil_div N 5)).
  assert (0 <= N)%Z as HN0 by (cbn in HN; lia).
  pose proof (Math_ceil_div_spec N 5 ltac:(lia)) as Hceil.
  destruct (forLoop_exact client file key N descr n start w0 Hclient HN0)
    as (Hx & Hlen & Hcount & Hsofar).
  { unfold raised. by rewrite Hctl. }
  { cbn. lia. }
  { cbn. lia. }
  exists (snd (fst (forLoop client file key N descr n start w0))).
  repeat split.
  - destruct (forLoop client file key N descr n start w0) as [[x l] w1].
    cbn in Hx |- *. by rewrite Hx.
  - done.
  - rewrite Hcount. lia.
  - pose proof (forLoop_args _ _ _ _ _ _ _ _ _ _ H) as Hc. by injection Hc.
  - pose proof (forLoop_args _ _ _ _ _ _ _ _ _ _ H) as Hc. by injection Hc as _ ->.
  - apply lookup_lt_Some in H. rewrite Hcount in H.
    specialize (Hsofar k ltac:(lia)). cbn in Hsofar. lia.
Qed.

(** C2, as amended: when no call brings back more prompts than it was asked
    for (fewer are allowed) and the target is not negative, the accumulated
    list holds at most the target number of prompts at every point of a run,
    that is after any number of passes of the loop from its start. *)
Theorem C2_bounded_without_overfill file key N descr w n :
  (forall b a r, (0 < count a)%Z -> outcome (client b a) = Resolved r ->
                 (Z.of_nat (length (GeminiService.prompts r)) <= count a)%Z) ->
  (0 <= N)%Z ->
  (Z.of_nat (length (accumulatedPrompts (snd (fst (forLoop client file key N descr n start w)))))
   <= N)%Z.
Proof. intros Hclient HN. by apply forLoop_bound. Qed.

(** C3: in every run, call number [k] is batch [k]; the first call passes no
    exclusion list at all, and every later call passes the list of all the
    prompts the calls before it brought back. *)
Theorem C3_exclusion_list w k b a :
  calls (events_of Handle w) !! k = Some (b, a) ->
  b = k
  /\ existingPrompts a
     = match k with
       | O => None
       | S _ => Some (delivered client (take k (calls (events_of Handle w))))
       end.
Proof.
  destruct (handle_cases w) as [[file Hready]|[_ Hnone]]; [|by rewrite Hnone].
  rewrite (handle_events _ _ Hready), generate_calls, tryBlock_eq. intros Hk.
  apply forLoop_args in Hk. injection Hk as -> ->. split; [done|].
  by destruct k.
Qed.

(** C4, as amended: in every run the two labels are unset by the reset at
    the start and after that assigned at most once, both together: exactly
    once, from the result of batch 0, when the first call is issued and
    answered with a result, and not at all otherwise; no later batch assigns
    them.  After any number of passes, and at the end of the run, the two are
    unset together or set together. *)
Theorem C4_labels_from_first_batch w file :
  ready w file ->
  let key := apiKey (app w) in
  let N := promptCount (app w) in
  let descr := imageDescription (app w) in
  let first := firstResult client file key N descr in
  let w' := snd (Handle w) in
  labelEvents (events_of Handle w)
  = [SetIdentifiedStyle None; SetIdentifiedSubject None] ++ labelsFrom first
  /\ identifiedStyle (app w') = GeminiService.identifiedStyle <$> first
  /\ identifiedSubject (app w') = GeminiService.identifiedSubject <$> first
  /\ both_or_neither (app w')
  /\ forall n,
       both_or_neither (app (snd (forLoop client file key N descr n start (snd (resetRun w))))).
Proof.
  intros Hready. cbn zeta.
  rewrite (handle_events _ _ Hready), (handle_ready _ _ Hready). cbn [snd].
  set (key := apiKey (app w)). set (N := promptCount (app w)).
  set (descr := imageDescription (app w)).
  destruct (generate_spec client file key N descr w)
    as (_ & evs & -> & _ & Hlab & _ & _ & _ & Hst' & Hsu').
  unfold both_or_neither at 1. rewrite Hst', Hsu'. clear Hst' Hsu'.
  destruct (resetRun_spec w) as (_ & Hctl & _ & _ & Hst0 & Hsu0).
  set (w0 := snd (resetRun w)) in *.
  assert (raised w0 = false) as Hraised by (unfold raised; by rewrite Hctl).
  assert (forall n,
    labelEvents (events_of (forLoop client file key N descr n start) w0)
    = match n with O => [] | S _ => labelsFrom (firstResult client file key N descr) end
    /\ identifiedStyle (app (snd (forLoop client file key N descr n start w0)))
       = match n with
         | O => None
         | S _ => GeminiService.identifiedStyle <$> firstResult client file key N descr
         end
    /\ identifiedSubject (app (snd (forLoop client file key N descr n start w0)))
       = match n with
         | O => None
         | S _ => GeminiService.identifiedSubject <$> firstResult client file key N descr
         end) as Hloop.
  { intros [|n].
    - by rewrite events_of_forLoop_0.
    - destruct (forLoop_labels_start client file key N descr n w0 Hraised) as (-> & -> & ->).
      rewrite Hst0, Hsu0. by destruct (firstResult client file key N descr). }
  assert (forall n,
    both_or_neither (app (snd (forLoop client file key N descr n start w0)))) as Hboth.
  { intros n. destruct (Hloop n) as (_ & Hst & Hsu). unfold both_or_neither.
    rewrite Hst, Hsu. destruct n; [by left|].
    destruct (firstResult client file key N descr) as [r|]; [right; by eauto|by left]. }
  rewrite tryBlock_eq.
  destruct (Hloop (Z.to_nat (Math_ceil_div N 5))) as (Hev & Hst & Hsu).
  assert (Z.to_nat (Math_ceil_div N 5) = 0 -> firstResult client file key N descr = None)
    as Hzero.
  { intros Hz. unfold firstResult.
    pose proof (Math_ceil_div_spec N 5 ltac:(lia)) as Hceil.
    assert ((0 <? N)%Z = false) as -> by lia. done. }
  repeat split.
  - rewrite !labelEvents_app, Hlab, Hev, app_nil_r. cbn [labelEvents resetEvents omap].
    destruct (Z.to_nat (Math_ceil_div N 5)); [by rewrite Hzero|done].
  - rewrite Hst. destruct (Z.to_nat (Math_ceil_div N 5)); [by rewrite Hzero|done].
  - rewrite Hsu. destruct (Z.to_nat (Math_ceil_div N 5)); [by rewrite Hzero|done].
  - apply (Hboth (Z.to_nat (Math_ceil_div N 5))).
  - apply Hboth.
Qed.

(** C5: in every run the displayed list and the accumulated list are what
    the calls brought back.  When a call is rejected it is the last call of
    the run, every call before it was answered, and what those calls brought
    back stays displayed; the run then shows the one generic message, unless
    the rejection is an abort error, in which case, as in every run that ends
    without a rejection (the break at the raised signal included), no message
    is shown at all. *)
Theorem C5_failure_policy w file :
  ready w file ->
  let evs := events_of Handle w in
  let cs := calls evs in
  let w' := snd (Handle w) in
  exists x l,
    fst (Handle w) = Some (x, l)
    /\ prompts (app w') = delivered client cs
    /\ accumulatedPrompts l = delivered client cs
    /\ match x with
       | Thrown e =>
           (exists cs0 c,
              cs = cs0 ++ [c]
              /\ outcome (client (fst c) (snd c)) = Rejected e
              /\ Forall (resolved client) cs0
              /\ prompts (app w') = delivered client cs0)
           /\ errorsShown evs = (if isAbortError e then [] else [generic_failure])
           /\ error (app w') = (if isAbortError e then None else Some generic_failure)
       | _ =>
           Forall (resolved client) cs /\ errorsShown evs = [] /\ error (app w') = None
       end.
Proof.
  intros Hready. cbn zeta.
  rewrite (handle_events _ _ Hready), (handle_ready _ _ Hready). cbn [fst snd].
  set (key := apiKey (app w)). set (N := promptCount (app w)).
  set (descr := imageDescription (app w)).
  rewrite generate_calls.
  destruct (generate_spec client file key N descr w)
    as (-> & evs & -> & _ & _ & Hshown & -> & -> & _).
  destruct (resetRun_spec w) as (_ & _ & Hp0 & Herr0 & _).
  rewrite !errorsShown_app, Hshown. rewrite !tryBlock_eq.
  set (w0 := snd (resetRun w)) in *. set (n := Z.to_nat (Math_ceil_div N 5)).
  destruct (forLoop_delivered client file key N descr n start w0) as [Hacc Hprompts].
  pose proof (forLoop_failure client file key N descr n start w0) as Hfail.
  destruct (forLoop_errors client file key N descr n start w0) as [-> Herr].
  rewrite Hprompts, Hp0, Herr, Herr0. cbn [resetEvents errorsShown omap List.app].
  cbn zeta in Hfail.
  destruct (forLoop client file key N descr n start w0) as [[x l] w1].
  cbn [fst snd] in *. exists x, l. repeat split; [done|].
  destruct x as [| | |e]; try done.
  destruct Hfail as (cs0 & c & Hcs & Hout & Hall).
  split; [|split].
  - exists cs0, c. repeat split; [done..|].
    by rewrite Hcs, (delivered_snoc_rejected _ _ _ _ Hout).
  - by destruct (isAbortError e).
  - by destruct (isAbortError e).
Qed.

(** C10: when Cancel is pressed while a call is pending and the call is then
    answered with a result, the pass goes on as if nothing had happened: the
    result's prompts are appended to the accumulated list and to the displayed
    list, after the abort; the signal is raised from then on, and what
    follows is the break at the next check, without any further call. *)
Theorem C10_pending_call_still_lands file key N descr l w ctl result :
  generationAbortController (app w) = Some ctl ->
  aborted ctl = false ->
  (0 < count (nextArgs file key N descr l))%Z ->
  client (i l) (nextArgs file key N descr l)
  = {| outcome := Resolved result; cancelPressed := true |} ->
  let newPrompts := GeminiService.prompts result in
  let l' := {| i := S (i l); accumulatedPrompts := accumulatedPrompts l ++ newPrompts |} in
  let w' := snd (body client file key N descr l w) in
  fst (body client file key N descr l w) = Next l'
  /\ prompts (app w') = prompts (app w) ++ newPrompts
  /\ length (accumulatedPrompts l') = length (accumulatedPrompts l) + length newPrompts
  /\ (exists before between,
        events_of (body client file key N descr l) w
        = before ++ [Call (i l) (nextArgs file key N descr l)] ++ [Abort] ++ between
          ++ [SetPrompts (prompts (app w) ++ newPrompts)])
  /\ raised w' = true
  /\ forall n,
       calls (events_of (forLoop client file key N descr n l') w') = []
       /\ fst (forLoop client file key N descr (S n) l' w') = (BreakAborted, l').
Proof.
  intros Hctl Hsig Hpos Hreply. cbn zeta.
  destruct (body_spec_ex client file key N descr l w) as (evs & Hlog & H). cbn zeta in H.
  apply events_of_eq in Hlog. rewrite Hlog. clear Hlog.
  rewrite Hreply in H. cbn [outcome cancelPressed] in H.
  destruct (body client file key N descr l w) as [[l1|x l1] w1]; cbn [fst snd] in *.
  - destruct H as (r & _ & _ & [= <-] & -> & _ & _ & _ & Hprompts & _ & _ & _ & Hc
                   & status & ->).
    assert (raised w1 = true) as Hraised by (unfold raised; by rewrite Hc, Hctl).
    rewrite Hctl. cbn [from_option].
    split; [done|]. split; [done|].
    split; [cbn [accumulatedPrompts]; by rewrite length_app|].
    split; [|split; [done|]].
    + exists [SetLoadingStatus status],
             ([SetIsLoading false; SetLoadingStatus ""]
              ++ labelsFrom (if Nat.eqb (i l) 0 then Some result else None)).
      by rewrite <- !app_assoc.
    + intros n.
      set (l' := {| i := S (i l);
                    accumulatedPrompts := accumulatedPrompts l ++ GeminiService.prompts result |}).
      split.
      * by destruct (forLoop_raised client file key N descr n l' w1 Hraised) as (-> & _).
      * by destruct (forLoop_raised client file key N descr (S n) l' w1 Hraised)
          as (_ & _ & _ & _ & ->).
  - exfalso. destruct x as [| | |e]; [done| | |].
    + destruct H as (Hr & _). unfold raised in Hr. rewrite Hctl in Hr. cbn in Hr. congruence.
    + destruct H as (_ & Hle & _). lia.
    + destruct H as (_ & _ & Hout & _). discriminate.
Qed.

End HandlerFacts.

(** ** Copy all *)

Section CopyFacts.

Import PromptList Props.

Lemma append_assoc (a b c : string) : (a +:+ b) +:+ c = a +:+ b +:+ c.
Proof.
  induction a as [|ch a IH]; [done|].
  unfold String.append; fold String.append. by rewrite IH.
Qed.

Lemma fold_join_prefix sep rest a b :
  fold_left (fun R next => R +:+ sep +:+ next) rest (a +:+ b)
  = a +:+ fold_left (fun R next => R +:+ sep +:+ next) rest b.
Proof.
  revert b. induction rest as [|x rest IH]; intros b; cbn [fold_left]; [done|].
  by rewrite append_assoc, IH.
Qed.

Lemma join_cons sep x y rest :
  join sep (x :: y :: rest) = x +:+ sep +:+ join sep (y :: rest).
Proof.
  unfold join. cbn [fold_left].
  by rewrite fold_join_prefix, <- (fold_join_prefix sep rest sep y).
Qed.

Lemma join_blank_lines lines : join (LF +:+ LF) lines = blank_line_separated lines.
Proof.
  induction lines as [|x [|y rest] IH]; [done..|].
  rewrite join_cons, IH. cbn [blank_line_separated]. by rewrite append_assoc.
Qed.

Lemma imap_numbered k prompts :
  imap (fun i => numbered (k + i)) prompts
  = zip_with (fun i p => pretty (S i) +:+ ". " +:+ p) (seq k (length prompts)) prompts.
Proof.
  revert k. induction prompts as [|p prompts IH]; intros k; [done|].
  cbn [imap length seq zip_with]. unfold numbered at 1.
  rewrite Nat.add_0_r, Nat.add_1_r. f_equal.
  rewrite <- IH. apply imap_ext. intros i x _. cbn. by rewrite Nat.add_succ_r.
Qed.

(** The text the code builds is the text the specification describes. *)
Lemma copy_all_text prompts :
  join (LF +:+ LF) (imap numbered prompts) = copy_all_spec prompts.
Proof.
  unfold copy_all_spec. rewrite <- (imap_numbered 0 prompts). apply join_blank_lines.
Qed.

(** C9: copy-all writes one text to the clipboard, the prompts numbered from
    one, each as number, full stop, space, prompt, with one blank line
    between them; for the prompts a and b it is the ten characters of
    "1. a", two line feeds, "2. b". *)
Theorem C9_copy_all_text prompts w :
  clipboard (handleCopyAll prompts w) = clipboard w ++ [copy_all_spec prompts]
  /\ clipboard (handleCopyAll ["a"; "b"] w)
     = clipboard w ++ ["1. a" +:+ LF +:+ LF +:+ "2. b"].
Proof.
  split; [|reflexivity].
  unfold handleCopyAll. cbn [clipboard]. by rewrite copy_all_text.
Qed.

End CopyFacts.

(** ** Sample runs *)

Section SampleRuns.

Import GeminiService App Props Samples PromptList.

(** A target of 12 with an obliging client: three calls asking for 5, 5 and 2
    prompts, the first without an exclusion list, the second excluding 5
    prompts and the third 10, and 12 prompts at the end. *)
Example run_of_twelve :
  fst (handleGeneratePrompts obliging (idle 12))
  = Some (Completed, {| i := 3; accumulatedPrompts := replicate 12 "a cat, bold outlines" |})
  /\ map (fun c => (fst c, count (snd c), length <$> existingPrompts (snd c)))
       (calls (events_of (handleGeneratePrompts obliging) (idle 12)))
     = [(0, 5%Z, None); (1, 5%Z, Some 5); (2, 2%Z, Some 10)].
Proof. vm_compute. done. Qed.

(** Cancel pressed during the first of two calls: the five prompts of that
    call are displayed, no second call is made, no message is shown. *)
Example cancel_during_first_call :
  fst (handleGeneratePrompts interrupted (idle 10))
  = Some (BreakAborted, {| i := 1; accumulatedPrompts := replicate 5 "a cat, bold outlines" |})
  /\ prompts (app (snd (handleGeneratePrompts interrupted (idle 10))))
     = replicate 5 "a cat, bold outlines"
  /\ length (calls (events_of (handleGeneratePrompts interrupted) (idle 10))) = 1
  /\ error (app (snd (handleGeneratePrompts interrupted (idle 10)))) = None.
Proof. vm_compute. done. Qed.

Lemma ready_idle N : ready (idle N) png.
Proof. split; [reflexivity|discriminate]. Qed.

Lemma C1_exact_batches_witness :
  exists l,
    fst (handleGeneratePrompts obliging (idle 10)) = Some (Completed, l)
    /\ Z.of_nat (length (accumulatedPrompts l)) = 10%Z
    /\ Z.of_nat (length (calls (events_of (handleGeneratePrompts obliging) (idle 10))))
       = Math_ceil_div 10 5.
Proof.
  destruct (C1_exact_batches obliging (idle 10) png) as (l & Hexit & Hlen & Hcalls & _).
  - apply ready_idle.
  - simpl. lia.
  - intros b a Hpos. eexists. split; [reflexivity|].
    cbn. rewrite length_replicate. lia.
  - exists l. auto.
Defined.

(** C2 as stated fails: asked for the 5 prompts of a target of 5, a client
    that brings back 6 leaves 6 prompts accumulated. *)
Lemma C2_counterexample_overfill :
  exists l,
    fst (handleGeneratePrompts generous (idle 5)) = Some (Completed, l)
    /\ (promptCount (app (idle 5)) < Z.of_nat (length (accumulatedPrompts l)))%Z.
Proof. eexists. split; [vm_compute; reflexivity|]. vm_compute. reflexivity. Qed.

Lemma C2_bounded_without_overfill_witness :
  (Z.of_nat (length (accumulatedPrompts
     (snd (fst (forLoop obliging png "key" 10 "" 2 start (running 10)))))) <= 10)%Z.
Proof.
  apply C2_bounded_without_overfill.
  - intros b a r Hpos [= <-]. cbn. rewrite length_replicate. lia.
  - lia.
Defined.

Lemma C3_exclusion_list_witness :
  existingPrompts
    (nextArgs png "key" 10 "" {| i := 1; accumulatedPrompts := replicate 5 "a cat, bold outlines" |})
  = Some (delivered obliging (take 1 (calls (events_of (handleGeneratePrompts obliging) (idle 10))))).
Proof.
  refine (proj2 (C3_exclusion_list obliging (idle 10) 1 1 _ _)).
  vm_compute. reflexivity.
Defined.

(** C4 as stated fails: when the first call is rejected the run is over with
    the first batch attempted and the labels never assigned. *)
Lemma C4_counterexample_first_call_rejected :
  length (calls (events_of (handleGeneratePrompts offline) (idle 5))) = 1
  /\ labelEvents (events_of (handleGeneratePrompts offline) (idle 5))
     = [SetIdentifiedStyle None; SetIdentifiedSubject None]
  /\ identifiedStyle (app (snd (handleGeneratePrompts offline (idle 5)))) = None
  /\ identifiedSubject (app (snd (handleGeneratePrompts offline (idle 5)))) = None.
Proof. vm_compute. done. Qed.

Lemma C4_labels_from_first_batch_witness :
  labelEvents (events_of (handleGeneratePrompts obliging) (idle 10))
  = [SetIdentifiedStyle None; SetIdentifiedSubject None;
     SetIdentifiedStyle (Some "Line art"); SetIdentifiedSubject (Some "Cat")].
Proof.
  exact (proj1 (C4_labels_from_first_batch obliging (idle 10) png (ready_idle 10))).
Defined.

Lemma C5_failure_policy_witness :
  exists x l,
    fst (handleGeneratePrompts offline (idle 10)) = Some (x, l)
    /\ prompts (app (snd (handleGeneratePrompts offline (idle 10))))
       = delivered offline (calls (events_of (handleGeneratePrompts offline) (idle 10))).
Proof.
  destruct (C5_failure_policy offline (idle 10) png (ready_idle 10))
    as (x & l & Hexit & Hshown & _).
  exists x, l. auto.
Defined.

(** C7 as stated fails: all three properties are present and [prompts] is an
    array, yet the call is rejected, the style label being the empty
    string. *)
Lemma C7_counterexample_empty_label :
  present body_empty_style "identifiedSubject"
  /\ present body_empty_style "identifiedStyle"
  /\ present_array body_empty_style "prompts"
  /\ snd (generatePromptsFromImage reader model (decodes_to body_empty_style)
            png "key" (Some 5%Z) None None)
     = Rejected couldNotParse.
Proof. repeat split; try (eexists; reflexivity). Qed.

Lemma C7_returns_iff_accepted_witness :
  snd (generatePromptsFromImage reader model (decodes_to body_ok) png "key" (Some 5%Z) None None)
  = Resolved body_ok
  <-> accepted body_ok.
Proof.
  refine (proj1 (C7_returns_iff_accepted reader model (decodes_to body_ok) png "key"
                   (Some 5%Z) None None "data:image/png;base64,iVBORw0KGgo=" "{...}"
                   body_ok _ _ _ _)); [discriminate|reflexivity..].
Defined.

Lemma C10_pending_call_still_lands_witness :
  prompts (app (snd (body interrupted png "key" 10 "" start (running 10))))
  = replicate 5 "a cat, bold outlines"
  /\ raised (snd (body interrupted png "key" 10 "" start (running 10))) = true.
Proof.
  destruct (C10_pending_call_still_lands interrupted png "key" 10 "" start (running 10)
              {| aborted := false |} (answer 5))
    as (_ & Hshown & _ & _ & Hraised & _);
    [reflexivity|reflexivity|cbn; lia|reflexivity|].
  split; [exact Hshown|exact Hraised].
Defined.

End SampleRuns.

(** ** More on the client *)

Section MoreClientFacts.

Import GeminiService Props MoreProps.

Variable readAsDataURL : File -> Settled string.
Variable generateContent : string -> Request -> Settled string.
Variable JSON_parse : string -> option json.

Local Abbreviation call := (generatePromptsFromImage readAsDataURL generateContent JSON_parse).

(** The call, step by step: the guard, the read, the request, the decoding. *)
Lemma generatePromptsFromImage_cases imageFile apiKey count existing description :
  let request url :=
    buildRequest imageFile (split "," url !! 1%nat) (default 5%Z count) existing description in
  (apiKey = "" /\ call imageFile apiKey count existing description = ([], Rejected missingKey))
  \/ (apiKey <> "" /\ exists e,
        readAsDataURL imageFile = Rejected e
        /\ call imageFile apiKey count existing description = ([ReadFile imageFile], Rejected e))
  \/ (apiKey <> "" /\ exists url e,
        readAsDataURL imageFile = Resolved url
        /\ generateContent apiKey (request url) = Rejected e
        /\ call imageFile apiKey count existing description
           = ([ReadFile imageFile; NetworkRequest apiKey (request url)], Rejected e))
  \/ (apiKey <> "" /\ exists url text body,
        readAsDataURL imageFile = Resolved url
        /\ generateContent apiKey (request url) = Resolved text
        /\ JSON_parse text = Some body /\ accepted body
        /\ call imageFile apiKey count existing description
           = ([ReadFile imageFile; NetworkRequest apiKey (request url)], Resolved body))
  \/ (apiKey <> "" /\ exists url text,
        readAsDataURL imageFile = Resolved url
        /\ generateContent apiKey (request url) = Resolved text
        /\ ~ (exists body, JSON_parse text = Some body /\ accepted body)
        /\ call imageFile apiKey count existing description
           = ([ReadFile imageFile; NetworkRequest apiKey (request url);
               ConsoleError "Failed to parse Gemini response:" text],
              Rejected couldNotParse)).
Proof.
  cbn zeta. unfold generatePromptsFromImage, fileToBase64.
  destruct (String.eqb_spec apiKey "") as [->|Hkey]; [by left|right].
  destruct (readAsDataURL imageFile) as [url|e]; [right|left; by eauto].
  destruct (generateContent apiKey _) as [text|e] eqn:Hnet; [right|left; by eauto 10].
  unfold decodeResponse.
  destruct (tryDecode JSON_parse text) as [e|body] eqn:Hdec.
  - right. split; [done|]. exists url, text. repeat split; [done|].
    intros (body & Hparse & Hacc).
    pose proof (proj2 (tryDecode_inr JSON_parse text body) (conj Hparse Hacc)). congruence.
  - left. apply tryDecode_inr in Hdec as [Hparse Hacc]. split; [done|].
    by exists url, text, body.
Qed.

(** X1: one call reads the file at most once and sends at most one request,
    never a second one whatever the answer; a request is sent only after the
    file was read, with the caller's credential, and carries what the read
    gave. *)
Theorem X1_client_one_read_one_request imageFile apiKey count existing description :
  let io := fst (call imageFile apiKey count existing description) in
  length (readsIn io) <= 1
  /\ length (requestsIn io) <= 1
  /\ forall key req, (key, req) ∈ requestsIn io ->
       key = apiKey
       /\ io !! 0 = Some (ReadFile imageFile)
       /\ exists url,
            readAsDataURL imageFile = Resolved url
            /\ req = buildRequest imageFile (split "," url !! 1%nat) (default 5%Z count)
                       existing description.
Proof.
  cbn zeta.
  pose proof (generatePromptsFromImage_cases imageFile apiKey count existing description)
    as Hcases; cbn zeta in Hcases; destruct Hcases
    as [[_ ->]|[(_ & e & _ & ->)|[(_ & url & e & Hread & _ & ->)
       |[(_ & url & text & body & Hread & _ & _ & _ & ->)
        |(_ & url & text & Hread & _ & _ & ->)]]]];
    cbn; (split; [lia|]); (split; [lia|]); intros key req Hin; set_unfold in Hin;
    try done; destruct Hin as [[= -> ->]|[]]; eauto.
Qed.

(** X2: a call is rejected in four ways only: with the missing-key error,
    having done nothing; with the reader's own error, no request having been
    sent; with the error the request itself failed with, nothing having been
    logged; or with the could-not-parse error. *)
Theorem X2_client_rejections imageFile apiKey count existing description e :
  snd (call imageFile apiKey count existing description) = Rejected e ->
  let io := fst (call imageFile apiKey count existing description) in
  (e = missingKey /\ apiKey = "" /\ io = [])
  \/ (readAsDataURL imageFile = Rejected e /\ requestsIn io = [])
  \/ ((exists req, generateContent apiKey req = Rejected e) /\ consoleIn io = [])
  \/ e = couldNotParse.
Proof.
  cbn zeta.
  pose proof (generatePromptsFromImage_cases imageFile apiKey count existing description)
    as Hcases; cbn zeta in Hcases; destruct Hcases
    as [[-> ->]|[(_ & e' & Hread & ->)|[(_ & url & e' & _ & Hnet & ->)
       |[(_ & url & text & body & _ & _ & _ & _ & ->)
        |(_ & url & text & _ & _ & _ & ->)]]]];
    cbn [fst snd]; intros [= <-]; eauto 10.
Qed.

(** X3: a call resolves only with a body that passed the check, decoded from
    the text the one request brought back, and then nothing was logged. *)
Theorem X3_client_resolves_checked imageFile apiKey count existing description body :
  snd (call imageFile apiKey count existing description) = Resolved body ->
  accepted body
  /\ apiKey <> ""
  /\ consoleIn (fst (call imageFile apiKey count existing description)) = []
  /\ exists url text,
       readAsDataURL imageFile = Resolved url
       /\ generateContent apiKey
            (buildRequest imageFile (split "," url !! 1%nat) (default 5%Z count)
               existing description) = Resolved text
       /\ JSON_parse text = Some body.
Proof.
  pose proof (generatePromptsFromImage_cases imageFile apiKey count existing description)
    as Hcases; cbn zeta in Hcases; destruct Hcases
    as [[-> ->]|[(_ & e' & Hread & ->)|[(_ & url & e' & _ & Hnet & ->)
       |[(Hkey & url & text & body' & Hread & Hnet & Hparse & Hacc & ->)
        |(_ & url & text & _ & _ & _ & ->)]]]];
    cbn [fst snd]; intros [= <-]. eauto 10.
Qed.

(** X4: an answer that is not JSON at all, or that is the JSON [null], does
    not escape as a syntax or type error: the text is logged and the call is
    rejected with the could-not-parse error. *)
Theorem X4_client_undecodable imageFile apiKey count existing description url text :
  apiKey <> "" ->
  readAsDataURL imageFile = Resolved url ->
  generateContent apiKey
    (buildRequest imageFile (split "," url !! 1%nat) (default 5%Z count) existing description)
    = Resolved text ->
  JSON_parse text = None \/ JSON_parse text = Some JNull ->
  snd (call imageFile apiKey count existing description) = Rejected couldNotParse
  /\ consoleIn (fst (call imageFile apiKey count existing description))
     = [("Failed to parse Gemini response:", text)].
Proof.
  intros Hkey Hread Hnet Hbad.
  pose proof (generatePromptsFromImage_cases imageFile apiKey count existing description)
    as Hcases; cbn zeta in Hcases; destruct Hcases
    as [[-> _]|[(_ & e' & Hread' & _)|[(_ & url' & e' & Hread' & Hnet' & _)
       |[(_ & url' & text' & body' & Hread' & Hnet' & Hparse & Hacc & _)
        |(_ & url' & text' & Hread' & Hnet' & _ & ->)]]]]; try congruence.
  - exfalso. rewrite Hread in Hread'. injection Hread' as <-.
    rewrite Hnet in Hnet'. injection Hnet' as <-.
    destruct Hbad as [Hbad|Hbad]; rewrite Hbad in Hparse; [done|].
    injection Hparse as <-. by destruct Hacc as (fields & items & ? & _).
  - rewrite Hread in Hread'. injection Hread' as <-.
    rewrite Hnet in Hnet'. by injection Hnet' as <-.
Qed.

(** Splitting at a character a string that does not hold it. *)
Lemma split_free c s : free_of c s -> split c s = [s].
Proof.
  induction s as [|c' s IH]; [done|]. intros [Hne Hfree]. cbn [split].
  destruct (Ascii.eqb_spec c' c) as [?|_]; [done|]. by rewrite IH.
Qed.

(** Splitting after a first piece that does not hold the character. *)
Lemma split_first c head rest :
  free_of c head -> split c (head +:+ String c rest) = head :: split c rest.
Proof.
  induction head as [|c' head IH]; intros Hfree.
  - change ("" +:+ String c rest) with (String c rest). cbn [split].
    by rewrite Ascii.eqb_refl.
  - destruct Hfree as [Hne Hfree].
    change (String c' head +:+ String c rest) with (String c' (head +:+ String c rest)).
    cbn [split]. destruct (Ascii.eqb_spec c' c) as [?|_]; [done|]. by rewrite IH.
Qed.

(** X5: from a data URL, that is a header without a comma, a comma and a
    payload without a comma, [fileToBase64] gives the payload, and that is
    what the request carries as the image data. *)
Theorem X5_fileToBase64_payload file header payload :
  readAsDataURL file = Resolved (header +:+ String "," payload) ->
  free_of "," header ->
  free_of "," payload ->
  fileToBase64 readAsDataURL file = Resolved (Some payload).
Proof.
  intros Hread Hheader Hpayload. unfold fileToBase64. rewrite Hread.
  by rewrite (split_first _ _ _ Hheader), (split_free _ _ Hpayload).
Qed.

(** X6: a reader result without any comma is no error: [fileToBase64]
    resolves with [undefined], and a call with a credential goes on to send
    its request, without image data. *)
Theorem X6_no_comma_no_data imageFile apiKey count existing description url :
  readAsDataURL imageFile = Resolved url ->
  free_of "," url ->
  apiKey <> "" ->
  fileToBase64 readAsDataURL imageFile = Resolved None
  /\ exists key req,
       requestsIn (fst (call imageFile apiKey count existing description)) = [(key, req)]
       /\ inlineData_data req = None.
Proof.
  intros Hread Hfree Hkey. split.
  - unfold fileToBase64. by rewrite Hread, (split_free _ _ Hfree).
  - pose proof (generatePromptsFromImage_cases imageFile apiKey count existing description)
      as Hcases; cbn zeta in Hcases; destruct Hcases
      as [[-> _]|[(_ & e' & Hread' & _)|[(_ & url' & e' & Hread' & _ & ->)
         |[(_ & url' & text' & body' & Hread' & _ & _ & _ & ->)
          |(_ & url' & text' & Hread' & _ & _ & ->)]]]]; try congruence;
      rewrite Hread in Hread'; injection Hread' as <-;
      eexists _, _; (split; [reflexivity|]); cbn; by rewrite (split_free _ _ Hfree).
Qed.

End MoreClientFacts.

(** ** More on the generation loop *)

Section MoreRunFacts.

Import GeminiService App Props MoreProps.

Variable client : nat -> Args -> Reply.
Variable file : File.
Variable key : string.
Variable N : Z.
Variable descr : string.

Local Abbreviation Body := (body client file key N descr).
Local Abbreviation Loop := (forLoop client file key N descr).
Local Abbreviation args_of := (nextArgs file key N descr).

Ltac one_pass l w H :=
  let evs := fresh "evs" in
  let Hlog := fresh "Hlog" in
  destruct (body_spec_ex client file key N descr l w) as (evs & Hlog & H);
  apply events_of_eq in Hlog; subst evs; cbn zeta in H.

(** The loop makes at most one call per pass its bound allows. *)
Lemma forLoop_call_budget n l w : length (calls (events_of (Loop n l) w)) <= n.
Proof.
  revert l w. induction n as [|n IH]; intros l w.
  - by rewrite events_of_forLoop_0.
  - one_pass l w H.
    destruct (Body l w) as [[l1|x l1] w1] eqn:Hb; cbn [fst snd] in H.
    + rewrite (calls_forLoop_next _ _ _ _ _ _ _ _ _ _ Hb). cbn [length].
      specialize (IH l1 w1). lia.
    + rewrite (events_of_forLoop_stop _ _ _ _ _ _ _ _ _ _ _ Hb).
      destruct x as [| | |e]; [done| | |].
      * destruct H as (_ & _ & _ & ->). cbn. lia.
      * destruct H as (_ & _ & _ & _ & ->). cbn. lia.
      * destruct H as (_ & _ & _ & _ & -> & _). cbn. lia.
Qed.

(** Every call of the loop asks for at least one prompt. *)
Lemma forLoop_calls_positive n l w c :
  c ∈ calls (events_of (Loop n l) w) -> (0 < count (snd c))%Z.
Proof.
  revert l w. induction n as [|n IH]; intros l w.
  - rewrite events_of_forLoop_0. by intros ?%elem_of_nil.
  - one_pass l w H.
    destruct (Body l w) as [[l1|x l1] w1] eqn:Hb; cbn [fst snd] in H.
    + rewrite (calls_forLoop_next _ _ _ _ _ _ _ _ _ _ Hb).
      destruct H as (r & _ & Hpos & _).
      intros [->|Hin]%elem_of_cons; [done|]. by eapply IH.
    + rewrite (events_of_forLoop_stop _ _ _ _ _ _ _ _ _ _ _ Hb).
      destruct x as [| | |e]; [done| | |].
      * destruct H as (_ & _ & _ & ->). by intros ?%elem_of_nil.
      * destruct H as (_ & _ & _ & _ & ->). by intros ?%elem_of_nil.
      * destruct H as (_ & Hpos & _ & _ & -> & _).
        by intros ->%list_elem_of_singleton.
Qed.

(** When no call brings back more than it was asked for, the accumulated
    list stays within five prompts per pass made, and so the loop never comes
    to a pass with nothing left to ask for. *)
Lemma forLoop_never_nothing_left n l w :
  (forall b a r, (0 < count a)%Z -> outcome (client b a) = Resolved r ->
                 (Z.of_nat (length (GeminiService.prompts r)) <= count a)%Z) ->
  (Z.of_nat (length (accumulatedPrompts l)) <= 5 * Z.of_nat (i l))%Z ->
  (n <> 0 -> (Z.of_nat (i l + n) <= Math_ceil_div N 5)%Z) ->
  fst (fst (Loop n l w)) <> BreakNothingLeft.
Proof.
  intros Hclient. revert l w.
  pose proof (Math_ceil_div_spec N 5 ltac:(lia)) as Hceil.
  induction n as [|n IH]; intros l w Hlen Htotal; [done|].
  specialize (Htotal ltac:(done)).
  one_pass l w H. rewrite forLoop_S.
  destruct (Body l w) as [[l1|x l1] w1] eqn:Hb; cbn [fst snd] in H.
  - destruct H as (r & _ & Hpos & Hout & -> & _).
    pose proof (Hclient _ _ _ Hpos Hout) as Hle. cbn [count nextArgs] in Hle.
    apply IH; cbn [i accumulatedPrompts]; [rewrite length_app|]; lia.
  - cbn [fst snd]. destruct x as [| | |e]; [done..| |done].
    destruct H as (_ & Hle & _). cbn [count nextArgs] in Hle. lia.
Qed.

(** When moreover every call is answered and Cancel is never pressed, the
    loop makes a call in every pass its bound allows and runs to the bound,
    however few prompts the calls bring back. *)
Lemma forLoop_all_passes n l w :
  (forall b a, (0 < count a)%Z ->
     exists r, client b a = {| outcome := Resolved r; cancelPressed := false |}
               /\ (Z.of_nat (length (GeminiService.prompts r)) <= count a)%Z) ->
  raised w = false ->
  (Z.of_nat (length (accumulatedPrompts l)) <= 5 * Z.of_nat (i l))%Z ->
  (n <> 0 -> (Z.of_nat (i l + n) <= Math_ceil_div N 5)%Z) ->
  fst (fst (Loop n l w)) = Completed
  /\ length (calls (events_of (Loop n l) w)) = n.
Proof.
  intros Hclient. revert l w.
  pose proof (Math_ceil_div_spec N 5 ltac:(lia)) as Hceil.
  induction n as [|n IH]; intros l w Hraised Hlen Htotal.
  - by rewrite events_of_forLoop_0.
  - specialize (Htotal ltac:(done)).
    assert (0 < count (args_of l))%Z as Hpos by (cbn [count nextArgs]; lia).
    destruct (Hclient (i l) (args_of l) Hpos) as (r0 & Hreply & Hle).
    one_pass l w H. rewrite forLoop_S. rewrite Hreply in H. cbn [outcome cancelPressed] in H.
    destruct (Body l w) as [[l1|x l1] w1] eqn:Hb; cbn [fst snd] in H.
    + destruct H as (r & _ & _ & [= <-] & -> & _ & _ & _ & _ & _ & _ & _ & Hc & _).
      rewrite (calls_forLoop_next _ _ _ _ _ _ _ _ _ _ Hb). cbn [length].
      destruct (IH (mkLocals (S (i l)) (accumulatedPrompts l ++ GeminiService.prompts r0)) w1)
        as [-> ->]; [| | |done].
      * unfold raised in *. by rewrite Hc.
      * cbn [i accumulatedPrompts]. cbn [count nextArgs] in Hle. rewrite length_app. lia.
      * cbn [i]. lia.
    + exfalso. destruct x as [| | |e]; [done| | |].
      * destruct H as (Hr & _). congruence.
      * destruct H as (_ & Hle' & _). lia.
      * destruct H as (_ & _ & Hout & _). discriminate.
Qed.

(** A loop that starts with the signal down and something to ask for begins
    with the call computed from its local variables. *)
Lemma forLoop_first_call n l w :
  raised w = false ->
  (0 < count (args_of l))%Z ->
  head (calls (events_of (Loop (S n) l) w)) = Some (i l, args_of l).
Proof.
  intros Hraised Hpos. one_pass l w H.
  destruct (Body l w) as [[l1|x l1] w1] eqn:Hb; cbn [fst snd] in H.
  - by rewrite (calls_forLoop_next _ _ _ _ _ _ _ _ _ _ Hb).
  - rewrite (events_of_forLoop_stop _ _ _ _ _ _ _ _ _ _ _ Hb).
    destruct x as [| | |e]; [done| | |].
    + destruct H as (Hr & _). congruence.
    + destruct H as (_ & Hle & _). lia.
    + by destruct H as (_ & _ & _ & _ & -> & _).
Qed.

(** X7: the loop only ever appends: what is accumulated, and what is
    displayed, after some passes is a prefix of what is there after more
    passes. *)
Theorem X7_prompts_only_grow n m l w :
  accumulatedPrompts (snd (fst (forLoop client file key N descr n l w)))
    `prefix_of` accumulatedPrompts (snd (fst (forLoop client file key N descr (n + m) l w)))
  /\ prompts (app (snd (forLoop client file key N descr n l w)))
     `prefix_of` prompts (app (snd (forLoop client file key N descr (n + m) l w))).
Proof.
  rewrite forLoop_prefix.
  destruct (Loop n l w) as [[x l'] w'] eqn:Hn. cbn [fst snd].
  destruct x; try done.
  destruct (forLoop_delivered client file key N descr m l' w') as [-> ->].
  split; by eexists.
Qed.

(** X8: [handleCancel] writes three cells only, the controller's flag, the
    loading flag and the progress text; it leaves a missing controller
    missing; and pressing Cancel twice leaves the state as pressing it
    once. *)
Theorem X8_handleCancel_frame w :
  let s := app w in
  let s' := app (snd (handleCancel w)) in
  s' = mkApp (imageFile s) (apiKey s) (imageDescription s) (prompts s) (promptCount s)
         (identifiedStyle s) (identifiedSubject s) false "" (error s)
         (cancelled (generationAbortController s))
  /\ app (snd (handleCancel (snd (handleCancel w)))) = s'.
Proof.
  destruct w as [s evs]. destruct s. cbn [app generationAbortController].
  by destruct generationAbortController0.
Qed.

(** One pass leaves the cells of the form alone, and the only progress
    texts it sets are the announcement of the batch it asks for and the empty
    text of a Cancel. *)
Lemma body_inputs_statuses l w :
  let s := app w in
  let s' := app (snd (Body l w)) in
  let announced :=
    (Z.of_nat (length (accumulatedPrompts l)) + count (args_of l))%Z in
  (imageFile s' = imageFile s /\ apiKey s' = apiKey s
   /\ imageDescription s' = imageDescription s /\ promptCount s' = promptCount s)
  /\ forall v, v ∈ statusesIn (events_of (Body l) w) ->
       (0 < count (args_of l))%Z
       /\ (v = "" \/ v = "Generating " +:+ pretty announced +:+ " of " +:+ pretty N +:+ "...").
Proof.
  cbn zeta. unfold events_of.
  destruct (Body l w) as [c w'] eqn:Hb. cbn [fst snd]. revert Hb.
  unfold body, await_call, handleCancel, get, nextArgs.
  unfold setLoadingStatus, setIsLoading, setController, setPrompts, setIdentifiedStyle,
    setIdentifiedSubject, emit, update.
  unfold mbind, M_bind, mret, M_ret, signal_aborted.
  cbn [count].
  generalize (@pretty Z _). intros show.
  destruct (from_option aborted false (generationAbortController (app w))) eqn:Hsig.
  { intros [= <- <-]. cbn. rewrite drop_app_length. split; [done|].
    by intros v ?%elem_of_nil. }
  destruct (Z.min 5 (N - Z.of_nat (length (accumulatedPrompts l))) <=? 0)%Z eqn:Hsz.
  { intros [= <- <-]. rewrite drop_all. split; [done|]. by intros v ?%elem_of_nil. }
  apply Z.leb_gt in Hsz.
  set (a := mkArgs _ _ _ _ _).
  destruct (client (i l) a) as [out pressed] eqn:Hrep.
  cbn [cancelPressed outcome].
  destruct pressed, out as [r|e], (generationAbortController (app w)) as [ctl|] eqn:Hc,
    (Nat.eqb (i l) 0) eqn:Hi;
    cbn -[String.append drop]; intros [= <- <-]; cbn -[String.append drop];
    (split; [done|]); rewrite <- ?app_assoc, drop_app_length;
    cbn -[String.append]; intros v Hv; set_unfold in Hv; (split; [done|]); tauto.
Qed.

Lemma statusesIn_app evs1 evs2 :
  statusesIn (evs1 ++ evs2) = statusesIn evs1 ++ statusesIn evs2.
Proof. apply omap_app. Qed.

(** The loop leaves the cells of the form alone, and every progress text it
    sets is empty or announces a total that is positive and within the
    target. *)
Lemma forLoop_inputs_statuses n l w :
  inputs (app (snd (Loop n l w))) = inputs (app w)
  /\ forall v, v ∈ statusesIn (events_of (Loop n l) w) ->
       v = "" \/ exists m, (0 < m <= N)%Z /\ v = progress m N.
Proof.
  revert l w. induction n as [|n IH]; intros l w.
  - rewrite events_of_forLoop_0. split; [done|]. by intros v ?%elem_of_nil.
  - destruct (body_inputs_statuses l w) as [(H1 & H2 & H3 & H4) Hst].
    assert (inputs (app (snd (Body l w))) = inputs (app w)) as Hin
      by (unfold inputs; by rewrite H1, H2, H3, H4).
    assert (forall v, v ∈ statusesIn (events_of (Body l) w) ->
              v = "" \/ exists m, (0 < m <= N)%Z /\ v = progress m N) as Hst'.
    { intros v Hv. destruct (Hst v Hv) as [Hpos [-> | ->]]; [by left|right].
      eexists. split; [|reflexivity]. cbn [count nextArgs] in *. lia. }
    rewrite forLoop_S.
    destruct (Body l w) as [[l1|x l1] w1] eqn:Hb; cbn [fst snd] in *.
    + rewrite (events_of_forLoop_next _ _ _ _ _ _ _ _ _ _ Hb), statusesIn_app.
      destruct (IH l1 w1) as [-> IHst]. split; [done|].
      intros v [Hv|Hv]%elem_of_app; auto.
    + by rewrite (events_of_forLoop_stop _ _ _ _ _ _ _ _ _ _ _ Hb).
Qed.

Local Abbreviation Try := (tryBlock client file key N descr).
Local Abbreviation Generate := (generate client file key N descr).

Lemma resetRun_exact w :
  app (snd (resetRun w))
  = mkApp (imageFile (app w)) (apiKey (app w)) (imageDescription (app w)) []
      (promptCount (app w)) None None true (loadingStatus (app w)) None
      (Some {| aborted := false |}).
Proof. destruct w as [s evs]. destruct s. reflexivity. Qed.

(** The [catch] and [finally] clauses in full. *)
Lemma finish_exact x w :
  log (snd ((catchClause x ;; finallyClause) w)) = log w ++ finishEvents x
  /\ app (snd ((catchClause x ;; finallyClause) w))
     = mkApp (imageFile (app w)) (apiKey (app w)) (imageDescription (app w))
         (prompts (app w)) (promptCount (app w)) (identifiedStyle (app w))
         (identifiedSubject (app w)) false ""
         (match x with
          | Thrown e => if isAbortError e then error (app w) else Some generic_failure
          | _ => error (app w)
          end)
         (generationAbortController (app w)).
Proof.
  destruct w as [s evs0]. destruct s. unfold finishEvents, isAbortError, catchClause.
  destruct x as [| | |e]; [| | |destruct (String.eqb (name e) "AbortError")];
    cbv -[List.app generic_failure]; by rewrite <- ?app_assoc.
Qed.

(** The events of a run are those of the reset, of the loop and of the two
    closing clauses, in that order. *)
Lemma generate_events_exact w :
  events_of Generate w
  = resetEvents ++ events_of Try (snd (resetRun w))
    ++ finishEvents (fst (fst (Try (snd (resetRun w))))).
Proof.
  apply events_of_eq. rewrite generate_eq. cbn [snd].
  destruct (finish_exact (fst (fst (Try (snd (resetRun w))))) (snd (Try (snd (resetRun w)))))
    as [-> _].
  destruct (resetRun_spec w) as (Hreset & _).
  by rewrite tryBlock_log, Hreset, <- !app_assoc.
Qed.




End MoreRunFacts.

(** ** More on the handler *)

Section MoreHandlerFacts.

Import GeminiService App Props MoreProps.

Variable client : nat -> Args -> Reply.

Local Abbreviation Handle := (handleGeneratePrompts client).

(** The events and the final state of a refused click. *)
Lemma handle_refused w :
  imageFile (app w) = None \/ apiKey (app w) = "" ->
  let msg := match imageFile (app w) with
             | None => "Please upload an image first."
             | Some _ => "Please enter your Google Gemini API key."
             end in
  Handle w = (None, snd (setError (Some msg) w)).
Proof.
  intros Hno. cbn zeta. destruct (imageFile (app w)) as [file|] eqn:Hfile.
  - destruct Hno as [?|Hkey]; [done|]. by apply (handle_no_key client w file).
  - by apply handle_no_image.
Qed.

(** X9: whatever the client answers, a click makes at most [ceil (N / 5)]
    calls; none at all for a target that is not positive. *)
Theorem X9_call_budget w :
  length (calls (events_of Handle w)) <= Z.to_nat (Math_ceil_div (promptCount (app w)) 5).
Proof.
  destruct (handle_cases client w) as [[file Hready]|[_ ->]]; [|cbn; lia].
  rewrite (handle_events _ _ _ Hready), generate_calls, tryBlock_eq.
  apply forLoop_call_budget.
Qed.

(** X10: every call of a run asks for between one and five prompts and for
    no more than the target still misses, and carries the image, the
    credential and the description the page held when the run started. *)
Theorem X10_calls_well_formed w k b a :
  calls (events_of Handle w) !! k = Some (b, a) ->
  (1 <= count a <= 5)%Z
  /\ (Z.of_nat (length (delivered client (take k (calls (events_of Handle w))))) + count a
      <= promptCount (app w))%Z
  /\ imageFile (app w) = Some (GeminiService.imageFile a)
  /\ GeminiService.apiKey a = apiKey (app w)
  /\ description a = imageDescription (app w).
Proof.
  destruct (handle_cases client w) as [[file Hready]|[_ Hnone]]; [|by rewrite Hnone].
  rewrite (handle_events _ _ _ Hready), generate_calls, tryBlock_eq. intros Hk.
  pose proof (forLoop_calls_positive _ _ _ _ _ _ _ _ _ (list_elem_of_lookup_2 _ _ _ Hk)) as Hpos.
  pose proof (forLoop_args _ _ _ _ _ _ _ _ _ _ Hk) as Hargs.
  remember (calls (events_of (forLoop client file (apiKey (app w)) (promptCount (app w))
                                (imageDescription (app w))
                                (Z.to_nat (Math_ceil_div (promptCount (app w)) 5)) start)
                     (snd (resetRun w)))) as cs eqn:Hcs.
  clear Hcs Hk. injection Hargs as -> ->.
  unfold nextArgs in *.
  cbn [snd count accumulatedPrompts start GeminiService.imageFile
         GeminiService.apiKey description List.app] in *.
  destruct Hready as [Hfile _]. repeat split; try done; lia.
Qed.

(** X11: a click without an image, or with an empty credential, is refused:
    the one thing it does is to set the error text, to the image message when
    the image is missing and to the credential message otherwise; no call is
    made and nothing of the last run is reset. *)
Theorem X11_guards_refuse w :
  imageFile (app w) = None \/ apiKey (app w) = "" ->
  let s := app w in
  let msg := match imageFile s with
             | None => "Please upload an image first."
             | Some _ => "Please enter your Google Gemini API key."
             end in
  fst (Handle w) = None
  /\ events_of Handle w = [SetError (Some msg)]
  /\ app (snd (Handle w))
     = mkApp (imageFile s) (apiKey s) (imageDescription s) (prompts s) (promptCount s)
         (identifiedStyle s) (identifiedSubject s) (isLoading s) (loadingStatus s)
         (Some msg) (generationAbortController s).
Proof.
  intros Hno. cbn zeta. unfold events_of. rewrite (handle_refused w Hno). cbn [fst snd].
  destruct w as [s evs]. cbn. by rewrite drop_app_length.
Qed.

(** X12: unless a call brings back more prompts than it was asked for, a run
    never leaves its loop at the check for nothing left to ask for. *)
Theorem X12_nothing_left_needs_overfill w l :
  (forall b a r, (0 < count a)%Z -> outcome (client b a) = Resolved r ->
                 (Z.of_nat (length (GeminiService.prompts r)) <= count a)%Z) ->
  fst (handleGeneratePrompts client w) <> Some (BreakNothingLeft, l).
Proof.
  intros Hclient.
  destruct (handle_cases client w) as [[file Hready]|[-> _]]; [|done].
  rewrite (handle_ready _ _ _ Hready). cbn [fst].
  destruct (generate_spec client file (apiKey (app w)) (promptCount (app w))
              (imageDescription (app w)) w) as (-> & _).
  rewrite tryBlock_eq.
  pose proof (forLoop_never_nothing_left client file (apiKey (app w)) (promptCount (app w))
                (imageDescription (app w))
                (Z.to_nat (Math_ceil_div (promptCount (app w)) 5)) start
                (snd (resetRun w)) Hclient) as Hnever.
  destruct (forLoop _ _ _ _ _ _ _ _) as [[x l'] w1]. cbn [fst] in *.
  intros [= -> _]. apply Hnever; [cbn; lia|cbn; lia|done].
Qed.

(** X13: when every call is answered without surplus and Cancel is never
    pressed, a run makes exactly [ceil (N / 5)] calls and runs to the bound
    of its loop, also when calls bring back fewer prompts than asked for: a
    shortfall is neither made up by a further call nor a reason to stop. *)
Theorem X13_shortfall_not_made_up w file :
  ready w file ->
  (forall b a, (0 < count a)%Z ->
     exists r, client b a = {| outcome := Resolved r; cancelPressed := false |}
               /\ (Z.of_nat (length (GeminiService.prompts r)) <= count a)%Z) ->
  exists l,
    fst (Handle w) = Some (Completed, l)
    /\ length (calls (events_of Handle w)) = Z.to_nat (Math_ceil_div (promptCount (app w)) 5)
    /\ accumulatedPrompts l = delivered client (calls (events_of Handle w)).
Proof.
  intros Hready Hclient.
  rewrite (handle_events _ _ _ Hready), (handle_ready _ _ _ Hready). cbn [fst].
  rewrite generate_calls.
  destruct (generate_spec client file (apiKey (app w)) (promptCount (app w))
              (imageDescription (app w)) w) as (-> & _).
  rewrite !tryBlock_eq.
  set (N := promptCount (app w)). set (n := Z.to_nat (Math_ceil_div N 5)).
  destruct (resetRun_spec w) as (_ & Hctl & _).
  destruct (forLoop_all_passes client file (apiKey (app w)) N (imageDescription (app w))
              n start (snd (resetRun w)) Hclient) as [Hx Hn].
  { unfold raised. by rewrite Hctl. }
  { cbn. lia. }
  { subst n. cbn. lia. }
  destruct (forLoop_delivered client file (apiKey (app w)) N (imageDescription (app w))
              n start (snd (resetRun w))) as [Hacc _].
  destruct (forLoop client file (apiKey (app w)) N (imageDescription (app w)) n start
              (snd (resetRun w))) as [[x l] w1].
  cbn [fst snd] in *. subst x. by exists l.
Qed.

(** X14: a run starts from a controller of its own: with an image, a
    credential and a positive target the first call is made whatever the
    page's state was, a signal raised by an earlier Cancel included. *)
Theorem X14_new_run_first_call w file :
  ready w file ->
  (0 < promptCount (app w))%Z ->
  head (calls (events_of Handle w))
  = Some (0, nextArgs file (apiKey (app w)) (promptCount (app w)) (imageDescription (app w))
               start).
Proof.
  intros Hready HN.
  rewrite (handle_events _ _ _ Hready), generate_calls, tryBlock_eq.
  pose proof (Math_ceil_div_spec (promptCount (app w)) 5 ltac:(lia)) as Hceil.
  destruct (Z.to_nat (Math_ceil_div (promptCount (app w)) 5)) as [|n] eqn:Hn; [lia|].
  destruct (resetRun_spec w) as (_ & Hctl & _).
  apply forLoop_first_call; [unfold raised; by rewrite Hctl|cbn; lia].
Qed.

Lemma run_ends_idle w file :
  ready w file ->
  isLoading (app (snd (Handle w))) = false
  /\ loadingStatus (app (snd (Handle w))) = ""
  /\ inputs (app (snd (Handle w))) = inputs (app w).
Proof.
  intros Hready. rewrite (handle_ready _ _ _ Hready). cbn [snd].
  rewrite generate_eq. cbn [snd].
  set (x := fst (fst (tryBlock client file (apiKey (app w)) (promptCount (app w))
                        (imageDescription (app w)) (snd (resetRun w))))).
  destruct (finish_exact x (snd (tryBlock client file (apiKey (app w)) (promptCount (app w))
                                   (imageDescription (app w)) (snd (resetRun w)))))
    as [_ ->].
  split; [done|]. split; [done|].
  rewrite tryBlock_eq.
  destruct (forLoop_inputs_statuses client file (apiKey (app w)) (promptCount (app w))
              (imageDescription (app w))
              (Z.to_nat (Math_ceil_div (promptCount (app w)) 5)) start (snd (resetRun w)))
    as [Hin _].
  unfold inputs in *. cbn [imageFile apiKey imageDescription promptCount].
  rewrite Hin, resetRun_exact. done.
Qed.

(** X15: however a run ends, at the bound of its loop, at a break or by a
    rejected call, it ends with the loading flag down and the progress text
    empty, and with the image, the credential, the description and the
    target as they were when it started. *)
Theorem X15_run_ends_idle w file :
  ready w file ->
  isLoading (app (snd (Handle w))) = false
  /\ loadingStatus (app (snd (Handle w))) = ""
  /\ inputs (app (snd (Handle w))) = inputs (app w).
Proof. apply run_ends_idle. Qed.

(** X16: every progress text a click sets is either empty or announces a
    total that is at least one and at most the target, whatever the client
    brings back. *)
Theorem X16_progress_within_target w v :
  v ∈ statusesIn (events_of Handle w) ->
  v = "" \/ exists m, (0 < m <= promptCount (app w))%Z /\ v = progress m (promptCount (app w)).
Proof.
  destruct (handle_cases client w) as [[file Hready]|[Hnone _]].
  - rewrite (handle_events _ _ _ Hready), generate_events_exact, !statusesIn_app, tryBlock_eq.
    intros [Hv|[Hv|Hv]%elem_of_app]%elem_of_app.
    + by apply elem_of_nil in Hv.
    + by eapply forLoop_inputs_statuses.
    + left. unfold finishEvents in Hv.
      destruct (fst (fst _)) as [| | |e]; [| | |destruct (isAbortError e)];
        set_unfold in Hv; tauto.
  - assert (imageFile (app w) = None \/ apiKey (app w) = "") as Hno.
    { destruct (imageFile (app w)) as [file|] eqn:Hfile; [|by left].
      destruct (String.eqb_spec (apiKey (app w)) "") as [?|Hkey]; [by right|].
      rewrite (handle_ready client w file) in Hnone by done. done. }
    unfold events_of. rewrite (handle_refused w Hno). cbn. rewrite drop_app_length.
    by intros ?%elem_of_nil.
Qed.



End MoreHandlerFacts.

(** ** What is rendered *)

Section ViewFacts.

Import GeminiService App Props MoreProps Page.

(** X17: while the page is not loading, the Generate button is disabled
    exactly when the handler behind it would refuse the click, and enabled
    exactly when an image and a credential are there: through the button the
    handler's two guards never fire. *)
Theorem X17_button_matches_guards client w :
  isLoading (app w) = false ->
  (button (render (app w)) = GenerateButton true
   <-> fst (handleGeneratePrompts client w) = None)
  /\ (button (render (app w)) = GenerateButton false <-> exists file, ready w file).
Proof.
  intros Hidle. unfold render. cbn [button]. rewrite Hidle.
  destruct (imageFile (app w)) as [file|] eqn:Hfile.
  - destruct (String.eqb_spec (apiKey (app w)) "") as [Hkey|Hkey].
    + rewrite (handle_no_key client w file Hfile Hkey). cbn.
      split; [done|]. split; [done|]. intros (f & _ & Hk). done.
    + rewrite (handle_ready client w file (conj Hfile Hkey)). cbn.
      split; [done|]. split; [|done]. intros _. exists file. split; [done|done].
  - rewrite (handle_no_image client w Hfile). cbn.
    split; [done|]. split; [done|]. intros (f & Hf & _). unfold ready in *. congruence.
Qed.

(** X18: the results panel is never blank: the spinner, the error text, the
    placeholder or the list is there; the placeholder is there only when the
    other three are not, and the spinner never together with the list. (The
    error text can stand beside the list or the spinner.) *)
Theorem X18_panel_never_blank s :
  (is_Some (spinner (render s)) \/ is_Some (errorText (render s))
   \/ placeholder (render s) = true \/ is_Some (results (render s)))
  /\ (placeholder (render s) = true ->
      spinner (render s) = None /\ errorText (render s) = None /\ results (render s) = None)
  /\ (is_Some (spinner (render s)) -> results (render s) = None).
Proof.
  unfold render. cbn [spinner errorText placeholder results].
  destruct (isLoading s), (prompts s) as [|p ps], (shown (error s)) as [msg|];
    cbn; repeat split; eauto; try done; try (by intros [? [=]]).
Qed.

(** X19: what the first run of a page leaves to see when Cancel is not
    pressed while it goes on: no spinner; the list of all the prompts the
    calls brought back, when there are any; and the generic error text when,
    and only when, the run ended by a rejection other than an abort.  The
    controller cell is empty until the first run starts, so no earlier run
    can still have a call pending; and without a Cancel the page stays
    loading until the run is over, so that no other run can start meanwhile:
    the run is the only writer of the cells rendered. *)
Theorem X19_view_after_run client w file :
  ready w file ->
  generationAbortController (app w) = None ->
  (forall b a, cancelPressed (client b a) = false) ->
  let v := render (app (snd (handleGeneratePrompts client w))) in
  let brought := delivered client (calls (events_of (handleGeneratePrompts client) w)) in
  spinner v = None
  /\ listed <$> results v = (if brought is [] then None else Some brought)
  /\ errorText v
     = match fst (handleGeneratePrompts client w) with
       | Some (Thrown e, _) => if isAbortError e then None else Some generic_failure
       | _ => None
       end.
Proof.
  intros Hready _ _. cbn zeta.
  destruct (run_ends_idle client w file Hready) as (Hidle & _).
  rewrite (handle_events _ _ _ Hready), (handle_ready _ _ _ Hready). cbn [fst snd].
  rewrite (handle_ready _ _ _ Hready) in Hidle. cbn [snd] in Hidle.
  rewrite generate_calls.
  destruct (generate_spec client file (apiKey (app w)) (promptCount (app w))
              (imageDescription (app w)) w)
    as (-> & evs & _ & _ & _ & _ & Herr & Hprompts & _).
  unfold render. cbn [spinner results errorText]. rewrite Hidle, Herr, Hprompts.
  rewrite !tryBlock_eq.
  set (n := Z.to_nat (Math_ceil_div (promptCount (app w)) 5)).
  destruct (forLoop_delivered client file (apiKey (app w)) (promptCount (app w))
              (imageDescription (app w)) n start (snd (resetRun w))) as [_ ->].
  destruct (forLoop_errors client file (apiKey (app w)) (promptCount (app w))
              (imageDescription (app w)) n start (snd (resetRun w))) as [_ ->].
  destruct (resetRun_spec w) as (_ & _ & -> & -> & _). cbn [List.app].
  split; [done|]. split.
  - by destruct (delivered client _).
  - destruct (forLoop _ _ _ _ _ _ _ _) as [[x l'] w1]. cbn [fst snd].
    destruct x as [| | |e]; [done..|]. by destruct (isAbortError e).
Qed.

End ViewFacts.

(** ** The form: the image, the credential, the uploader *)

Section PageFacts.

Import GeminiService App Props MoreProps Page.

(** X20: choosing or clearing an image wipes what the last run left: the
    page shows neither a list nor an error text afterwards, and when no run
    is going on it shows the placeholder. The credential, the description
    and the target stay, and so does the loading flag. *)
Theorem X20_image_change_wipes_results file b :
  let s := app (page b) in
  let s' := app (page (handleImageChange file b)) in
  imageFile s' = file
  /\ results (render s') = None
  /\ errorText (render s') = None
  /\ placeholder (render s') = negb (isLoading s)
  /\ (apiKey s', imageDescription s', promptCount s') = (apiKey s, imageDescription s, promptCount s)
  /\ inputsDisabled (render s') = inputsDisabled (render s).
Proof.
  cbn zeta. unfold handleImageChange, render. cbn.
  repeat split; try done. by destruct (isLoading _).
Qed.

(** X21: the credential survives a reload: what [handleApiKeyChange] stores
    is what the initial state reads back, the empty credential included, and
    no other entry of the storage is touched. *)
Theorem X21_credential_round_trip newKey b :
  let b' := handleApiKeyChange newKey b in
  apiKey (app (page b')) = newKey
  /\ apiKey (initialApp (localStorage b')) = newKey
  /\ (forall other, other <> storageKey -> localStorage b' !! other = localStorage b !! other).
Proof.
  cbn zeta. unfold handleApiKeyChange, initialApp. cbn [page app apiKey localStorage].
  split; [done|]. split.
  - rewrite lookup_insert_eq. by destruct (String.eqb_spec newKey "") as [->|].
  - intros other Hother. by rewrite lookup_insert_ne.
Qed.

(** X22: a drop reaches the page only while no run is going on and only
    when the first dropped file has a type that starts with [image/]; then it
    does what choosing that file does. The picker takes its first file
    whatever its type; both ignore all files after the first. *)
Theorem X22_drop_is_guarded files b :
  dropFiles files b
  = match ImageUploader.firstFile files with
    | Some file =>
        if negb (isLoading (app (page b))) && String.prefix "image/" (type file)
        then handleImageChange (Some file) b else b
    | None => b
    end
  /\ pickFiles files b
     = match ImageUploader.firstFile files with
       | Some file => handleImageChange (Some file) b
       | None => b
       end.
Proof.
  unfold dropFiles, pickFiles, ImageUploader.handleDrop, ImageUploader.handleFileChange.
  destruct (ImageUploader.firstFile files) as [file|]; cbn [List.app foldl applyEffect].
  - split; [|done].
    destruct (isLoading (app (page b))); [done|].
    by destruct (String.prefix "image/" (type file)).
  - split; [|done]. by destruct (isLoading (app (page b))).
Qed.

End PageFacts.

(** ** The copy marks *)

Section CardFacts.

Import PromptList PromptCards.

Variable prompts : list string.

Local Abbreviation marks_ok := (CardProps.marks_ok prompts).
Local Abbreviation clipboard_ok := (CardProps.clipboard_ok prompts).

Lemma act_marks_ok w a : marks_ok w -> marks_ok (act prompts w a).
Proof.
  intros [Hall Hidx]. destruct a as [index| |k]; cbn [act].
  - unfold clickCopy. destruct (prompts !! index) as [p|] eqn:Hp; [|done].
    split; cbn; [done|]. intros i [= <-]. by apply lookup_lt_Some in Hp.
  - split; cbn; done.
  - unfold fire. destruct (timers w !! k) as [[[] d]|]; [| |done].
    + split; cbn; done.
    + split; cbn; [done|]. apply Hidx.
Qed.

Lemma foldl_marks_ok actions w : marks_ok w -> marks_ok (foldl (act prompts) w actions).
Proof.
  revert w. induction actions as [|a actions IH]; intros w Hw; [done|].
  cbn [foldl]. by apply IH, act_marks_ok.
Qed.

(** X23: whatever is clicked and whichever timers come due, in any order,
    the two check marks never show together, and the card mark is always on
    a card of the list. *)
Theorem X23_copy_marks_exclusive actions :
  let w := foldl (act prompts) mounted actions in
  (allCopied (state w) = true -> forall index, isCopied w index = false)
  /\ (forall index, isCopied w index = true -> index < length prompts).
Proof.
  cbn zeta. destruct (foldl_marks_ok actions mounted) as [Hall Hidx]; [by split|].
  unfold isCopied. split.
  - intros Htrue index. rewrite (Hall Htrue). by apply bool_decide_eq_false.
  - intros index Hcopied. apply Hidx. by apply bool_decide_eq_true_1 in Hcopied.
Qed.

Lemma act_clipboard_ok w a : clipboard_ok w -> clipboard_ok (act prompts w a).
Proof.
  intros Hw. destruct a as [index| |k]; cbn [act].
  - unfold clickCopy. destruct (prompts !! index) as [p|] eqn:Hp; [|done].
    intros text. cbn. rewrite elem_of_app, list_elem_of_singleton.
    intros [?| ->]; [by apply Hw|]. left. by eapply list_elem_of_lookup_2.
  - intros text. cbn. rewrite elem_of_app, list_elem_of_singleton.
    intros [?| ->]; [by apply Hw|]. by right.
  - unfold fire. by destruct (timers w !! k) as [[cb d]|].
Qed.

(** X24: the clipboard is only ever given a prompt of the list or the
    numbered text of the whole list, and a timer coming due writes
    nothing. *)
Theorem X24_clipboard_texts actions text :
  text ∈ clipboard (foldl (act prompts) mounted actions) ->
  text ∈ prompts \/ text = join (LF +:+ LF) (imap numbered prompts).
Proof.
  assert (forall w, clipboard_ok w -> clipboard_ok (foldl (act prompts) w actions)) as Hfold.
  { induction actions as [|a rest IH]; intros w Hw; [done|].
    cbn [foldl]. by apply IH, act_clipboard_ok. }
  apply Hfold. intros t Ht. cbn in Ht. by apply elem_of_nil in Ht.
Qed.

End CardFacts.

(** ** The exclusion paragraph *)

Section RequestFacts.

Import GeminiService MoreProps.

Lemma append_nil_r (s : string) : s +:+ "" = s.
Proof.
  induction s as [|ch s IH]; [done|].
  unfold String.append; fold String.append. by rewrite IH.
Qed.

Lemma join_foldr sep p ps :
  join sep (p :: ps) = p +:+ foldr (fun q rest => sep +:+ q +:+ rest) "" ps.
Proof.
  revert p. induction ps as [|q ps IH]; intros p.
  - cbn. by rewrite append_nil_r.
  - by rewrite join_cons, IH.
Qed.

(** X25: in the exclusion paragraph the first excluded prompt follows the
    header line bare, and only the later ones are set off by a line feed,
    a dash and a space; an empty list still gives the header line. *)
Theorem X25_exclusion_layout :
  (forall p ps,
     continuationInstruction (Some (p :: ps))
     = exclusionHeader +:+ LF +:+ p +:+ bulleted ps +:+ LF)
  /\ continuationInstruction (Some []) = exclusionHeader +:+ LF +:+ LF
  /\ continuationInstruction None = "".
Proof.
  split; [|done]. intros p ps. unfold continuationInstruction, exclusionHeader.
  rewrite join_foldr, append_assoc.
  assert (foldr (fun q rest => (LF +:+ "- ") +:+ q +:+ rest) "" ps = bulleted ps) as ->; [|done].
  unfold bulleted. induction ps as [|q ps IH]; [done|].
  cbn [foldr]. by rewrite IH, !append_assoc.
Qed.

End RequestFacts.

(** ** Sample runs of the further properties *)

Section MoreSampleRuns.

Import GeminiService App Props MoreProps Page Samples MoreSamples.

Lemma X2_client_rejections_witness :
  (missingKey = missingKey /\ "" = ""
   /\ fst (generatePromptsFromImage reader model (decodes_to body_ok) png "" None None None) = [])
  \/ (reader png = Rejected missingKey
      /\ requestsIn (fst (generatePromptsFromImage reader model (decodes_to body_ok)
                            png "" None None None)) = [])
  \/ ((exists req, model "" req = Rejected missingKey)
      /\ consoleIn (fst (generatePromptsFromImage reader model (decodes_to body_ok)
                           png "" None None None)) = [])
  \/ missingKey = couldNotParse.
Proof.
  apply (X2_client_rejections reader model (decodes_to body_ok) png "" None None None missingKey).
  reflexivity.
Defined.

Lemma X3_client_resolves_checked_witness :
  accepted body_ok
  /\ "key" <> ""
  /\ consoleIn (fst (generatePromptsFromImage reader model (decodes_to body_ok)
                       png "key" None None None)) = [].
Proof.
  destruct (X3_client_resolves_checked reader model (decodes_to body_ok) png "key"
              None None None body_ok) as (Hok & Hkey & Hlog & _); [reflexivity|].
  split; [exact Hok|]. split; [exact Hkey|exact Hlog].
Defined.

Lemma X4_client_undecodable_witness :
  snd (generatePromptsFromImage reader model (decodes_to JNull) png "key" None None None)
  = Rejected couldNotParse
  /\ consoleIn (fst (generatePromptsFromImage reader model (decodes_to JNull)
                       png "key" None None None))
     = [("Failed to parse Gemini response:", "{...}")].
Proof.
  apply (X4_client_undecodable reader model (decodes_to JNull) png "key" None None None
           "data:image/png;base64,iVBORw0KGgo=" "{...}");
    [discriminate|reflexivity|reflexivity|right; reflexivity].
Defined.

Lemma X5_fileToBase64_payload_witness :
  fileToBase64 reader png = Resolved (Some "iVBORw0KGgo=").
Proof.
  apply (X5_fileToBase64_payload reader png "data:image/png;base64" "iVBORw0KGgo=");
    [reflexivity|cbn; repeat split; discriminate..].
Defined.

Lemma X6_no_comma_no_data_witness :
  fileToBase64 bare_reader png = Resolved None
  /\ exists key req,
       requestsIn (fst (generatePromptsFromImage bare_reader model (decodes_to body_ok)
                          png "key" None None None)) = [(key, req)]
       /\ inlineData_data req = None.
Proof.
  apply (X6_no_comma_no_data bare_reader model (decodes_to body_ok) png "key" None None None
           "blob"); [reflexivity|cbn; repeat split; discriminate|discriminate].
Defined.

Lemma X10_calls_well_formed_witness :
  (1 <= 5 <= 5)%Z
  /\ (Z.of_nat (length (delivered obliging
                          (take 1 (calls (events_of (handleGeneratePrompts obliging) (idle 10))))))
      + 5 <= 10)%Z.
Proof.
  destruct (X10_calls_well_formed obliging (idle 10) 1 1
              (nextArgs png "key" 10 ""
                 {| i := 1; accumulatedPrompts := replicate 5 "a cat, bold outlines" |}))
    as (Hcount & Hroom & _); [vm_compute; reflexivity|].
  split; [exact Hcount|exact Hroom].
Defined.

Lemma X15_run_ends_idle_witness :
  isLoading (app (snd (handleGeneratePrompts offline (idle 10)))) = false
  /\ loadingStatus (app (snd (handleGeneratePrompts offline (idle 10)))) = ""
  /\ inputs (app (snd (handleGeneratePrompts offline (idle 10)))) = inputs (app (idle 10)).
Proof. exact (X15_run_ends_idle offline (idle 10) png (ready_idle 10)). Defined.

Lemma X11_guards_refuse_witness :
  fst (handleGeneratePrompts obliging fresh) = None
  /\ events_of (handleGeneratePrompts obliging) fresh
     = [SetError (Some "Please upload an image first.")].
Proof.
  destruct (X11_guards_refuse obliging fresh) as (Hnone & Hevents & _);
    [left; reflexivity|].
  split; [exact Hnone|exact Hevents].
Defined.

Lemma X12_nothing_left_needs_overfill_witness :
  fst (handleGeneratePrompts obliging (idle 10)) <> Some (BreakNothingLeft, start).
Proof.
  apply (X12_nothing_left_needs_overfill obliging (idle 10) start).
  intros b a r Hpos [= <-]. cbn. rewrite length_replicate. lia.
Defined.

Lemma X13_shortfall_not_made_up_witness :
  exists l,
    fst (handleGeneratePrompts sparing (idle 10)) = Some (Completed, l)
    /\ length (calls (events_of (handleGeneratePrompts sparing) (idle 10)))
       = Z.to_nat (Math_ceil_div 10 5)
    /\ accumulatedPrompts l
       = delivered sparing (calls (events_of (handleGeneratePrompts sparing) (idle 10))).
Proof.
  apply (X13_shortfall_not_made_up sparing (idle 10) png (ready_idle 10)).
  intros b a Hpos. eexists. split; [reflexivity|].
  cbn. rewrite length_replicate. lia.
Defined.

Lemma X16_progress_within_target_witness :
  "Generating 10 of 10..." = ""
  \/ exists m, (0 < m <= 10)%Z /\ "Generating 10 of 10..." = progress m 10.
Proof.
  apply (X16_progress_within_target obliging (idle 10) "Generating 10 of 10...").
  vm_compute. do 3 constructor.
Defined.

Lemma X14_new_run_first_call_witness :
  head (calls (events_of (handleGeneratePrompts obliging) (cancelledWorld 10)))
  = Some (0, nextArgs png "key" 10 "" start).
Proof.
  apply (X14_new_run_first_call obliging (cancelledWorld 10) png);
    [split; [reflexivity|discriminate]|reflexivity].
Defined.

Lemma X17_button_matches_guards_witness :
  button (render (app (idle 10))) = GenerateButton false <-> exists file, ready (idle 10) file.
Proof.
  exact (proj2 (X17_button_matches_guards obliging (idle 10) eq_refl)).
Defined.

Lemma X19_view_after_run_witness :
  errorText (render (app (snd (handleGeneratePrompts offline (idle 10)))))
  = match fst (handleGeneratePrompts offline (idle 10)) with
    | Some (Thrown e, _) => if isAbortError e then None else Some generic_failure
    | _ => None
    end.
Proof.
  exact (proj2 (proj2 (X19_view_after_run offline (idle 10) png (ready_idle 10)
                         eq_refl (fun _ _ => eq_refl)))).
Defined.



Lemma X24_clipboard_texts_witness :
  "a dog" ∈ three \/ "a dog" = join (LF +:+ LF) (imap PromptList.numbered three).
Proof.
  apply (X24_clipboard_texts three [PromptCards.Copy 1; PromptCards.CopyAll] "a dog").
  vm_compute. constructor.
Defined.

End MoreSampleRuns.
